(** * Graph pipeline of stock_forecasting_CAI: encoding, splitting, training, evaluation

    Shallow embedding of [Comparison Models/Graph Based/GCN/gcn.py].

    Conventions of the embedding.
    - A Python exception is a value of [exn]; a call that may raise returns
      [res A].
    - A value of a tensor or of an array is a [float]: a real number or
      one of the IEEE special values.  Rounding error, the sign of zero and
      the cast to single precision are not modelled, so an arithmetic
      statement about such values is about exact arithmetic.
    - The Partitioner is embedded twice.  In [split_data] the ratios are
      rationals ([Q]) and the sizes are computed exactly; it carries the
      properties that do not depend on the sizes.  In [Double.split_data]
      the ratios are binary64 numbers and every operation rounds as the
      code's does, so the sizes are the ones the script computes.
    - Library code the script calls (scikit-learn's [train_test_split] and
      [StandardScaler], numpy's reductions, torch's [MSELoss]) is embedded
      from the library's documented behaviour; the random generator, the
      network's forward pass, autograd and the optimizer are parameters. *)

From Stdlib Require Import Reals Lqa Lra Lia QArith Qround ZArith.
From Stdlib Require SpecFloat.
From stdpp Require Import base gmap strings list.

(** ** Exceptions *)

Inductive exn : Type :=
  | KeyError (key : string)
  | IndexError
  | ValueError
  | ZeroDivisionError
  | TypeError
  | OverflowError.

Inductive res (A : Type) : Type :=
  | Ok (a : A)
  | Raise (e : exn).
Arguments Ok {A} a.
Arguments Raise {A} e.

Definition bind {A B} (m : res A) (k : A → res B) : res B :=
  match m with
  | Ok a => k a
  | Raise e => Raise e
  end.

Notation "'do' x <- m ; k" := (bind m (fun x => k))
  (at level 10, x pattern, m at level 100, k at level 200).

(** ** Floating-point values *)

Inductive float : Type :=
  | Fin (r : R)
  | PInf
  | NInf
  | NaN.

#[global] Instance R_eq_dec : EqDecision R := Req_dec_T.

Module Float.

(** [±inf * r], also [r / 0] for a finite [r]. *)
Definition scale_inf (positive : bool) (r : R) : float :=
  if Req_dec_T r 0 then NaN
  else if Rlt_dec 0 r then (if positive then PInf else NInf)
  else (if positive then NInf else PInf).

Definition add (a b : float) : float :=
  match a, b with
  | NaN, _ | _, NaN => NaN
  | Fin x, Fin y => Fin (x + y)
  | PInf, NInf | NInf, PInf => NaN
  | PInf, _ | _, PInf => PInf
  | NInf, _ | _, NInf => NInf
  end.

Definition neg (a : float) : float :=
  match a with
  | Fin x => Fin (- x)
  | PInf => NInf
  | NInf => PInf
  | NaN => NaN
  end.

Definition sub (a b : float) : float := add a (neg b).

Definition mul (a b : float) : float :=
  match a, b with
  | NaN, _ | _, NaN => NaN
  | Fin x, Fin y => Fin (x * y)
  | PInf, Fin r | Fin r, PInf => scale_inf true r
  | NInf, Fin r | Fin r, NInf => scale_inf false r
  | PInf, PInf | NInf, NInf => PInf
  | PInf, NInf | NInf, PInf => NInf
  end.

Definition div (a b : float) : float :=
  match a, b with
  | NaN, _ | _, NaN => NaN
  | Fin x, Fin y => if Req_dec_T y 0 then scale_inf true x else Fin (x / y)
  | Fin _, (PInf | NInf) => Fin 0
  | PInf, Fin y => if Rlt_dec y 0 then NInf else PInf
  | NInf, Fin y => if Rlt_dec y 0 then PInf else NInf
  | (PInf | NInf), (PInf | NInf) => NaN
  end.

Definition sqrt (a : float) : float :=
  match a with
  | Fin x => if Rlt_dec x 0 then NaN else Fin (R_sqrt.sqrt x)
  | PInf => PInf
  | NInf | NaN => NaN
  end.

Definition abs (a : float) : float :=
  match a with
  | Fin x => Fin (Rabs x)
  | PInf | NInf => PInf
  | NaN => NaN
  end.

(** [np.sign] *)
Definition sign (a : float) : float :=
  match a with
  | Fin x => if Rlt_dec x 0 then Fin (-1) else if Rlt_dec 0 x then Fin 1 else Fin 0
  | PInf => Fin 1
  | NInf => Fin (-1)
  | NaN => NaN
  end.

(** [==]: false as soon as one side is NaN. *)
Definition eqb (a b : float) : bool :=
  match a, b with
  | Fin x, Fin y => bool_decide (x = y)
  | PInf, PInf | NInf, NInf => true
  | _, _ => false
  end.

Definition is_finite (a : float) : bool :=
  match a with Fin _ => true | _ => false end.

Definition is_nan (a : float) : bool :=
  match a with NaN => true | _ => false end.

Definition of_nat (n : nat) : float := Fin (INR n).

Definition of_bool (b : bool) : float := Fin (if b then 1 else 0).

(** Sum of an array, from 0. *)
Definition sum (l : list float) : float := foldl add (Fin 0) l.

(** [np.mean], [tensor.mean()]: the sum over the number of elements; the
    mean of an empty array is [0/0]. *)
Definition mean (l : list float) : float := div (sum l) (of_nat (length l)).

(** [np.clip(a, -1, 1)] *)
Definition clip1 (a : float) : float :=
  match a with
  | Fin x => if Rlt_dec x (-1) then Fin (-1) else if Rlt_dec 1 x then Fin 1 else Fin x
  | PInf => Fin 1
  | NInf => Fin (-1)
  | NaN => NaN
  end.

End Float.

(** [a[idx]] for an integer index array: the rows of [a] at the positions
    [idx], in the order of [idx]. *)
Fixpoint index_select {A} (a : list A) (idx : list nat) : res (list A) :=
  match idx with
  | [] => Ok []
  | i :: idx' =>
      match a !! i with
      | Some v => do vs <- index_select a idx'; Ok (v :: vs)
      | None => Raise IndexError
      end
  end.

(** A tensor or array of dimension 0 or 1. *)
Inductive Tensor : Type :=
  | Scalar (v : float)
  | Vector (l : list float).

(** [output.squeeze()] for an output of shape (N, 1), given by its N
    entries: a vector of N entries, except that a single entry becomes a
    tensor of dimension 0. *)
Definition squeeze (output : list float) : Tensor :=
  match output with
  | [v] => Scalar v
  | _ => Vector output
  end.

(** torch: [t[idx]] for an index tensor [idx].  A tensor of dimension 0
    cannot be indexed. *)
Definition tensor_getitem (t : Tensor) (idx : list nat) : res (list float) :=
  match t with
  | Scalar _ => Raise IndexError
  | Vector l => index_select l idx
  end.

(** numpy: [a[idx]] for a torch index tensor [idx].  numpy asks the tensor
    for [__index__] first, which a tensor of exactly one element answers: the
    tensor then counts as an integer and the result is a scalar.  Any other
    tensor is converted to an index array.  An array of dimension 0 cannot be
    indexed. *)
Definition np_getitem (a : Tensor) (idx : list nat) : res Tensor :=
  match a with
  | Scalar _ => Raise IndexError
  | Vector l =>
      match idx with
      | [i] =>
          match l !! i with
          | Some v => Ok (Scalar v)
          | None => Raise IndexError
          end
      | _ => do rows <- index_select l idx; Ok (Vector rows)
      end
  end.

(** ** Graph ingestion and encoding *)

(** A networkx graph as the script reads it: the nodes in the graph's
    enumeration order, each with its attribute dictionary, and the edges. *)
Record Graph : Type := {
  nodes : list (string * gmap string float);
  edges : list (string * string)
}.

(** The encoded graph ([torch_geometric.data.Data]) with the split index
    tensors the script attaches to it. *)
Record Data : Type := {
  x : list (list float);
  edge_index : list nat * list nat;
  y : list float;
  train_idx : list nat;
  val_idx : list nat;
  test_idx : list nat
}.

Definition num_nodes (data : Data) : nat := length (x data).

(** What networkx guarantees of a graph: an edge joins two nodes of the
    graph ([add_edge] adds the endpoints it does not find, and [read_gml]
    rejects an edge to an undefined node). *)
Definition edges_closed (graph : Graph) : Prop :=
  ∀ u v, (u, v) ∈ edges graph → u ∈ (nodes graph).*1 ∧ v ∈ (nodes graph).*1.

(** [float(data.get(key, 0))] *)
Definition data_get (data : gmap string float) (key : string) : float :=
  default (Fin 0) (data !! key).

Definition node_row (data : gmap string float) : list float :=
  [ data_get data "volume_weighted_sentiment";
    data_get data "daily_return";
    data_get data "rolling_avg";
    data_get data "volatility";
    data_get data "momentum" ].

Definition enumerate {A} (l : list A) : list (nat * A) := zip (seq 0 (length l)) l.

(** The loop over [enumerate(graph.nodes(data=True))]. *)
Definition nodes_step (acc : list (list float) * list float * gmap string nat)
    (it : nat * (string * gmap string float))
    : list (list float) * list float * gmap string nat :=
  let '(node_features, node_labels, node_mapping) := acc in
  let '(i, (node, data)) := it in
  (node_features ++ [node_row data],
   node_labels ++ [data_get data "daily_return"],
   <[node := i]> node_mapping).

Definition nodes_loop (ns : list (string * gmap string float))
    : list (list float) * list float * gmap string nat :=
  foldl nodes_step ([], [], ∅) (enumerate ns).

(** [node_mapping[key]] *)
Definition getitem (node_mapping : gmap string nat) (key : string) : res nat :=
  match node_mapping !! key with
  | Some i => Ok i
  | None => Raise (KeyError key)
  end.

(** The loop over [graph.edges()]. *)
Fixpoint edges_loop (node_mapping : gmap string nat) (es : list (string * string))
    : res (list (nat * nat)) :=
  match es with
  | [] => Ok []
  | (src, dst) :: es' =>
      do s <- getitem node_mapping src;
      do d <- getitem node_mapping dst;
      do rest <- edges_loop node_mapping es';
      Ok ((s, d) :: rest)
  end.

(** [torch.tensor(edge_index).t()]: the row of sources and the row of
    destinations. *)
Definition transpose_pairs (l : list (nat * nat)) : list nat * list nat :=
  (l.*1, l.*2).

Definition nx_to_pyg_data (graph : Graph) : res Data :=
  let '(node_features, node_labels, node_mapping) := nodes_loop (nodes graph) in
  do edge_index <- edges_loop node_mapping (edges graph);
  Ok {| x := node_features;
        edge_index := transpose_pairs edge_index;
        y := node_labels;
        train_idx := []; val_idx := []; test_idx := [] |}.

(** ** Feature normalizer *)

(** Column [j] of a matrix given by rows. *)
Definition column (j : nat) (m : list (list float)) : list float :=
  omap (fun row => row !! j) m.

(** [StandardScaler.fit] on one column: the mean and the population
    variance over the entries that are not NaN. *)
Definition column_mean (col : list float) : float :=
  Float.mean (filter (fun v => Float.is_nan v = false) col).

Definition column_var (col : list float) : float :=
  let m := column_mean col in
  Float.mean (map (fun v => Float.mul (Float.sub v m) (Float.sub v m))
                  (filter (fun v => Float.is_nan v = false) col)).

(** [_handle_zeros_in_scale]: a scale of 0 becomes 1. *)
Definition handle_zeros_in_scale (scale : float) : float :=
  if Float.eqb scale (Fin 0) then Fin 1 else scale.

Definition column_scale (col : list float) : float :=
  handle_zeros_in_scale (Float.sqrt (column_var col)).

(** [StandardScaler.transform] on one column. *)
Definition scale_column (col : list float) : list float :=
  map (fun v => Float.div (Float.sub v (column_mean col)) (column_scale col)) col.

Definition has_inf (m : list (list float)) : bool :=
  existsb (existsb (fun v => match v with PInf | NInf => true | _ => false end)) m.

(** [scaler.fit_transform(data.x)]: scikit-learn rejects an empty matrix
    and infinite entries. *)
Definition fit_transform (m : list (list float)) : res (list (list float)) :=
  match m with
  | [] => Raise ValueError
  | row0 :: _ =>
      if has_inf m then Raise ValueError
      else
        let cols := map (fun j => scale_column (column j m)) (seq 0 (length row0)) in
        Ok (map (fun i => omap (fun col => col !! i) cols) (seq 0 (length m)))
  end.

(** [tensor.std()]: Bessel's correction, the divisor is [max(0, N - 1)]. *)
Definition tensor_std (t : list float) : float :=
  let m := Float.mean t in
  Float.sqrt
    (Float.div (Float.sum (map (fun v => Float.mul (Float.sub v m) (Float.sub v m)) t))
               (Float.of_nat (length t - 1))).

(** [data.y = (data.y - data.y.mean()) / data.y.std()] *)
Definition standardize_labels (t : list float) : list float :=
  let m := Float.mean t in
  let s := tensor_std t in
  map (fun v => Float.div (Float.sub v m) s) t.

Definition preprocess (data : Data) : res Data :=
  do x' <- fit_transform (x data);
  Ok {| x := x'; edge_index := edge_index data; y := standardize_labels (y data);
        train_idx := train_idx data; val_idx := val_idx data; test_idx := test_idx data |}.

(** ** Partitioner *)

(** [int(q)] on a float: truncation towards zero. *)
Definition int_of (q : Q) : Z := Z.quot (Qnum q) (Z.pos (Qden q)).

Definition default_train_ratio : Q := 7 # 10.
Definition default_val_ratio : Q := 15 # 100.

Section Partitioner.

(** numpy's generator: [RandomState(seed)] and [rng.permutation(n)], which
    returns a shuffled [arange(n)] and advances the generator. *)
Variable RandomState : Type.
Variable seeded : Z → RandomState.
Variable permutation : RandomState → nat → list nat * RandomState.

(** [check_random_state]: an integer seeds a fresh generator, [None] is
    numpy's global generator. *)
Definition check_random_state (random_state : option Z) (global : RandomState)
    : RandomState :=
  match random_state with
  | Some seed => seeded seed
  | None => global
  end.

(** [_validate_shuffle_split] for a float [test_size] and no
    [train_size]: the sizes of the two parts, as [(n_train, n_test)]. *)
Definition validate_shuffle_split (n_samples : nat) (test_size : Q) : res (nat * nat) :=
  if Qle_bool test_size 0 || Qle_bool 1 test_size then Raise ValueError
  else
    let n_test := Z.to_nat (Qceiling (test_size * inject_Z (Z.of_nat n_samples))) in
    let n_train := n_samples - n_test in
    if decide (n_train = 0) then Raise ValueError
    else Ok (n_train, n_test).

(** [train_test_split(a, test_size=..., random_state=...)]: one shuffle;
    the first [n_test] positions of the permutation are the test part, the
    next [n_train] the train part.  Returns [(train, test)] and numpy's
    global generator afterwards. *)
Definition train_test_split {A} (a : list A) (test_size : Q) (random_state : option Z)
    (global : RandomState) : res (list A * list A) * RandomState :=
  match validate_shuffle_split (length a) test_size with
  | Raise e => (Raise e, global)
  | Ok (n_train, n_test) =>
      let (perm, rng') := permutation (check_random_state random_state global) (length a) in
      let ind_test := take n_test perm in
      let ind_train := take n_train (drop n_test perm) in
      (do train <- index_select a ind_train;
       do test <- index_select a ind_test;
       Ok (train, test),
       match random_state with Some _ => global | None => rng' end)
  end.

(** [split_data(data, train_ratio, val_ratio)], run with numpy's global
    generator in state [global]. *)
Definition split_data (data : Data) (train_ratio val_ratio : Q) (global : RandomState)
    : res (list nat * list nat * list nat) * RandomState :=
  let indices := seq 0 (num_nodes data) in
  match train_test_split indices (1 - train_ratio) (Some 42%Z) global with
  | (Raise e, global1) => (Raise e, global1)
  | (Ok (train_idx, test_idx), global1) =>
      if decide (length test_idx = 0) then (Raise ZeroDivisionError, global1)
      else
        let test_size :=
          (inject_Z (Z.of_nat (length test_idx)
                     - int_of (val_ratio * inject_Z (Z.of_nat (length indices))))
           / inject_Z (Z.of_nat (length test_idx)))%Q in
        match train_test_split test_idx test_size (Some 42%Z) global1 with
        | (Raise e, global2) => (Raise e, global2)
        | (Ok (val_idx, test_idx'), global2) =>
            (Ok (train_idx, val_idx, test_idx'), global2)
        end
  end.

End Partitioner.

(** The sizes [split_data] works with: the number of indices the first
    split sets aside (the pool the validation indices are drawn from), and the
    number of validation indices asked for, [int(val_ratio * n)]. *)
Definition pool_size (n : nat) (train_ratio : Q) : Z :=
  Qceiling ((1 - train_ratio) * inject_Z (Z.of_nat n)).

Definition val_size (n : nat) (val_ratio : Q) : Z :=
  int_of (val_ratio * inject_Z (Z.of_nat n)).

(** ** The Partitioner in double precision

    The same code with Python's arithmetic: a ratio is a binary64 number
    (IEEE 754, as the Standard Library's [SpecFloat] specifies it), and the
    subtraction, the products and the division round to nearest even. *)
Module Double.

Definition double : Type := SpecFloat.spec_float.
Definition prec : Z := 53.
Definition emax : Z := 1024.

(** [float(z)] for an integer [z]. *)
Definition of_Z (z : Z) : double := SpecFloat.binary_normalize prec emax z 0 false.
Definition of_nat (n : nat) : double := of_Z (Z.of_nat n).

Definition sub : double → double → double := SpecFloat.SFsub prec emax.
Definition mul : double → double → double := SpecFloat.SFmul prec emax.
Definition div : double → double → double := SpecFloat.SFdiv prec emax.
Definition leb : double → double → bool := SpecFloat.SFleb.

(** A double of sign [s], or NaN: what an operation whose exact result
    has sign [s] can round to. *)
Definition signed (s : bool) (x : double) : Prop :=
  x = SpecFloat.S754_zero s ∨ x = SpecFloat.S754_infinity s ∨ x = SpecFloat.S754_nan ∨
  ∃ m e, x = SpecFloat.S754_finite s m e.

(** The decimal literal [num/den], as [0.7] is [7/10]: the double nearest
    to it. *)
Definition literal (num den : Z) : double := div (of_Z num) (of_Z den).

Definition default_train_ratio : double := literal 7 10.
Definition default_val_ratio : double := literal 15 100.

(** The integer [±m * 2^e] is rounded to: upwards for [math.ceil],
    towards zero for [int].  Both raise on NaN and on an infinity. *)
Definition ceil (x : double) : res Z :=
  match x with
  | SpecFloat.S754_zero _ => Ok 0%Z
  | SpecFloat.S754_finite s m e =>
      let sm := if s then Z.neg m else Z.pos m in
      Ok (if (0 <=? e)%Z then sm * 2 ^ e else - ((- sm) / 2 ^ (- e)))%Z
  | SpecFloat.S754_nan => Raise ValueError
  | SpecFloat.S754_infinity _ => Raise OverflowError
  end.

Definition int_of (x : double) : res Z :=
  match x with
  | SpecFloat.S754_zero _ => Ok 0%Z
  | SpecFloat.S754_finite s m e =>
      let sm := if s then Z.neg m else Z.pos m in
      Ok (if (0 <=? e)%Z then sm * 2 ^ e else sm ÷ 2 ^ (- e))%Z
  | SpecFloat.S754_nan => Raise ValueError
  | SpecFloat.S754_infinity _ => Raise OverflowError
  end.

(** A size argument of the library: a fraction of the samples or a
    number of samples. *)
Inductive size : Type :=
  | Fraction (f : double)
  | Count (z : Z).

(** [_validate_shuffle_split(n_samples, test_size, train_size)], as
    [(n_train, n_test)]: the range checks on the two sizes,
    [n_test = ceil(test_size * n_samples)] for a fraction, the train part
    taking the rest when no [train_size] is given, and the checks that the
    two parts fit and that the train part is not empty.  A NaN passes the
    range check and fails in [ceil]. *)
Definition validate_shuffle_split (n_samples : nat) (test_size : size)
    (train_size : option Z) : res (Z * Z) :=
  let n := Z.of_nat n_samples in
  if match test_size with
     | Count z => (n <=? z)%Z || (z <=? 0)%Z
     | Fraction f => leb f (of_Z 0) || leb (of_Z 1) f
     end
  then Raise ValueError
  else if match train_size with
          | Some z => (n <=? z)%Z || (z <=? 0)%Z
          | None => false
          end
  then Raise ValueError
  else
    do n_test <- match test_size with
                 | Fraction f => ceil (mul f (of_nat n_samples))
                 | Count z => Ok z
                 end;
    let n_train := match train_size with
                   | Some z => z
                   | None => (n - n_test)%Z
                   end in
    if (n <? n_train + n_test)%Z then Raise ValueError
    else if decide (n_train = 0%Z) then Raise ValueError
    else Ok (n_train, n_test).

(** The sizes [train_test_split] works with: it validates the fraction,
    and the [ShuffleSplit] it builds from the two counts validates these
    again. *)
Definition shuffle_split_sizes (n_samples : nat) (test_size : double) : res (Z * Z) :=
  do (n_train, n_test) <- validate_shuffle_split n_samples (Fraction test_size) None;
  validate_shuffle_split n_samples (Count n_test) (Some n_train).

Section Partitioner.

Variable RandomState : Type.
Variable seeded : Z → RandomState.
Variable permutation : RandomState → nat → list nat * RandomState.

(** [train_test_split(a, test_size=..., random_state=...)]: the test
    part is [permutation[:n_test]], the train part
    [permutation[n_test:(n_test + n_train)]]. *)
Definition train_test_split {A} (a : list A) (test_size : double)
    (random_state : option Z) (global : RandomState)
    : res (list A * list A) * RandomState :=
  match shuffle_split_sizes (length a) test_size with
  | Raise e => (Raise e, global)
  | Ok (n_train, n_test) =>
      let (perm, rng') :=
        permutation (check_random_state RandomState seeded random_state global)
                    (length a) in
      let ind_test := take (Z.to_nat n_test) perm in
      let ind_train := take (Z.to_nat n_train) (drop (Z.to_nat n_test) perm) in
      (do train <- index_select a ind_train;
       do test <- index_select a ind_test;
       Ok (train, test),
       match random_state with Some _ => global | None => rng' end)
  end.

(** [split_data(data, train_ratio, val_ratio)].  The quotient of the
    two integers is the double nearest to it (the operands are array
    lengths and convert exactly, unless [int(...)] is beyond 2^53, where
    only the sign of the quotient matters). *)
Definition split_data (data : Data) (train_ratio val_ratio : double)
    (global : RandomState) : res (list nat * list nat * list nat) * RandomState :=
  let indices := seq 0 (num_nodes data) in
  match train_test_split indices (sub (of_Z 1) train_ratio) (Some 42%Z) global with
  | (Raise e, global1) => (Raise e, global1)
  | (Ok (train_idx, test_idx), global1) =>
      match int_of (mul val_ratio (of_nat (length indices))) with
      | Raise e => (Raise e, global1)
      | Ok k =>
          if decide (length test_idx = 0) then (Raise ZeroDivisionError, global1)
          else
            let test_size :=
              div (of_Z (Z.of_nat (length test_idx) - k)) (of_nat (length test_idx)) in
            match train_test_split test_idx test_size (Some 42%Z) global1 with
            | (Raise e, global2) => (Raise e, global2)
            | (Ok (val_idx, test_idx'), global2) =>
                (Ok (train_idx, val_idx, test_idx'), global2)
            end
      end
  end.

End Partitioner.

(** The sizes of the three parts as [split_data] computes them, or the
    exception of the step that fails: [(train, val, test)]. *)
Definition split_sizes (n : nat) (train_ratio val_ratio : double) : res (nat * nat * nat) :=
  do (n_train, pool) <- shuffle_split_sizes n (sub (of_Z 1) train_ratio);
  do k <- int_of (mul val_ratio (of_nat n));
  if decide (Z.to_nat pool = 0) then Raise ZeroDivisionError
  else
    do (n_val, n_test) <-
      shuffle_split_sizes (Z.to_nat pool) (div (of_Z (pool - k)) (of_nat (Z.to_nat pool)));
    Ok (Z.to_nat n_train, Z.to_nat n_val, Z.to_nat n_test).

End Double.

(** A generator to run the Partitioner with: the state is a counter, and
    the permutation of [n] rotates [arange(n)] by the counter. *)
Module Rotation.
Definition RandomState : Type := nat.
Definition seeded (seed : Z) : RandomState := Z.to_nat seed.
Definition permutation (g : RandomState) (n : nat) : list nat * RandomState :=
  (rotate g (seq 0 n), S g).
End Rotation.

(** ** Trainer and Evaluator *)

(** [nn.MSELoss()]: the mean of the squared differences; over empty
    tensors this is the mean of an empty tensor. *)
Definition criterion (output target : list float) : float :=
  Float.mean (zip_with (fun o t => Float.mul (Float.sub o t) (Float.sub o t)) output target).

(** One line of the training log. *)
Record EpochMetrics : Type := {
  epoch : nat;
  train_loss : float;
  val_loss : float
}.

Record Metrics : Type := {
  MAE : float;
  RMSE : float;
  MAPE : float;
  Directional_Accuracy : float;
  Sharpe_Ratio : float;
  Information_Coefficient : float;
  Hit_Rate : float
}.

(** [sklearn.metrics]: the inputs are validated first; an empty array or an
    entry that is not finite raises. *)
Definition check_arrays (y_true y_pred : list float) : res unit :=
  if decide (length y_true = 0) then Raise ValueError
  else if forallb Float.is_finite y_true && forallb Float.is_finite y_pred then Ok ()
  else Raise ValueError.

Definition mean_absolute_error (y_true y_pred : list float) : res float :=
  do _ <- check_arrays y_true y_pred;
  Ok (Float.mean (zip_with (fun p t => Float.abs (Float.sub p t)) y_pred y_true)).

Definition mean_squared_error (y_true y_pred : list float) : res float :=
  do _ <- check_arrays y_true y_pred;
  Ok (Float.mean (zip_with (fun t p => Float.mul (Float.sub t p) (Float.sub t p)) y_true y_pred)).

(** [a[1:] - a[:-1]] *)
Definition deltas (a : list float) : list float :=
  zip_with Float.sub (drop 1 a) (take (length a - 1) a).

(** [np.mean(a == b)] for two arrays of signs. *)
Definition mean_agree (a b : list float) : float :=
  Float.mean (zip_with (fun u v => Float.of_bool (Float.eqb u v)) a b).

(** [np.std]: the population standard deviation. *)
Definition np_std (a : list float) : float :=
  let m := Float.mean a in
  Float.sqrt (Float.mean (map (fun v => Float.mul (Float.abs (Float.sub v m)) (Float.abs (Float.sub v m))) a)).

(** An entry of [np.cov([a, b])]: the sum of the products of the centred
    values, times [1 / fact], where [fact = N - 1] and a [fact <= 0] is
    replaced by [0.0]. *)
Definition np_cov (a b : list float) : float :=
  let ma := Float.mean a in
  let mb := Float.mean b in
  let fact := Float.of_nat (length a - 1) in
  Float.mul (Float.sum (zip_with (fun u v => Float.mul (Float.sub u ma) (Float.sub v mb)) a b))
            (Float.div (Fin 1) fact).

(** [np.corrcoef(a, b)[0, 1]] *)
Definition np_corrcoef (a b : list float) : float :=
  let stddev_a := Float.sqrt (np_cov a a) in
  let stddev_b := Float.sqrt (np_cov b b) in
  Float.clip1 (Float.div (Float.div (np_cov a b) stddev_a) stddev_b).

(** The metrics of [evaluate_model], from the predictions and the true
    values restricted to the test rows. *)
Definition compute_metrics (p t : list float) : res Metrics :=
  do mae <- mean_absolute_error t p;
  do mse <- mean_squared_error t p;
  let rmse := Float.sqrt mse in
  let mape :=
    Float.mul (Float.mean (zip_with (fun tv pv => Float.abs (Float.div (Float.sub tv pv) tv)) t p))
              (Fin 100) in
  let directional_accuracy :=
    mean_agree (map Float.sign (deltas p)) (map Float.sign (deltas t)) in
  let returns := zip_with Float.sub p t in
  let sharpe_ratio :=
    if negb (Float.eqb (np_std returns) (Fin 0))
    then Float.div (Float.mean returns) (np_std returns)
    else Fin 0 in
  let ic := np_corrcoef p t in
  let hit_rate :=
    Float.mul (mean_agree (map Float.sign p) (map Float.sign t)) (Fin 100) in
  Ok {| MAE := mae;
        RMSE := rmse;
        MAPE := mape;
        Directional_Accuracy := Float.mul directional_accuracy (Fin 100);
        Sharpe_Ratio := sharpe_ratio;
        Information_Coefficient := ic;
        Hit_Rate := hit_rate |}.

Section Training.

(** The network with everything a forward pass reads or writes: weights,
    batch-norm statistics, the training flag, the dropout generator. *)
Variable EnhancedGCN : Type.
(** [model.train()] and [model.eval()] *)
Variable set_training : bool → EnhancedGCN → EnhancedGCN.
(** [model(data.x, data.edge_index)]: the output of shape (N, 1), given
    by its one prediction per node, and the module afterwards. *)
Variable forward : EnhancedGCN → list (list float) → list nat * list nat → list float * EnhancedGCN.

(** The optimizer with its scheduler ([Adam], [StepLR]). *)
Variable Optimizer : Type.
Variable Gradients : Type.
Variable new_optimizer : EnhancedGCN → R → Optimizer.
(** [loss.backward()], for a loss computed from the output of the forward
    pass just made on [(x, edge_index)] by the function given. *)
Variable backward : EnhancedGCN → list (list float) → list nat * list nat →
                    (list float → float) → Gradients.
(** [optimizer.step()] *)
Variable optimizer_step : Optimizer → Gradients → EnhancedGCN → EnhancedGCN * Optimizer.
(** [scheduler.step()] *)
Variable scheduler_step : Optimizer → Optimizer.

(** The loss as autograd sees it: a function of the forward output. *)
Definition loss_of (idx : list nat) (target : list float) (output : list float) : float :=
  match tensor_getitem (squeeze output) idx with
  | Ok rows => criterion rows target
  | Raise _ => NaN
  end.

(** The body of the loop of [train_model].  The gradients are a fresh
    value in every epoch, which is what [optimizer.zero_grad()] before
    [loss.backward()] amounts to. *)
Definition train_epoch (data : Data) (i : nat) (st : EnhancedGCN * Optimizer)
    : res (EnhancedGCN * Optimizer * EpochMetrics) :=
  let '(model, optimizer) := st in
  let model := set_training true model in
  let '(output, model) := forward model (x data) (edge_index data) in
  let output := squeeze output in
  do out_train <- tensor_getitem output (train_idx data);
  do y_train <- index_select (y data) (train_idx data);
  let loss := criterion out_train y_train in
  let grads := backward model (x data) (edge_index data) (loss_of (train_idx data) y_train) in
  let '(model, optimizer) := optimizer_step optimizer grads model in
  let optimizer := scheduler_step optimizer in
  let model := set_training false model in
  do out_val <- tensor_getitem output (val_idx data);
  do y_val <- index_select (y data) (val_idx data);
  let val_loss := criterion out_val y_val in
  Ok (model, optimizer, {| epoch := i + 1; train_loss := loss; val_loss := val_loss |}).

(** [for epoch in range(first, first + epochs)] *)
Fixpoint train_loop (data : Data) (first epochs : nat) (st : EnhancedGCN * Optimizer)
    : res (EnhancedGCN * Optimizer * list EpochMetrics) :=
  match epochs with
  | 0 => Ok (st, [])
  | S epochs' =>
      do (model, optimizer, line) <- train_epoch data first st;
      do (model', optimizer', lines) <- train_loop data (S first) epochs' (model, optimizer);
      Ok (model', optimizer', line :: lines)
  end.

(** [train_model(model, data, epochs, lr)]: the trained model and the
    lines printed. *)
Definition train_model (model : EnhancedGCN) (data : Data) (epochs : nat) (lr : R)
    : res (EnhancedGCN * list EpochMetrics) :=
  do (model', _, lines) <- train_loop data 0 epochs (model, new_optimizer model lr);
  Ok (model', lines).

(** The validation loss of a forward pass made now, in evaluation mode. *)
Definition fresh_val_loss (model : EnhancedGCN) (data : Data) : res float :=
  let '(output, _) := forward (set_training false model) (x data) (edge_index data) in
  do out_val <- tensor_getitem (squeeze output) (val_idx data);
  do y_val <- index_select (y data) (val_idx data);
  Ok (criterion out_val y_val).

(** [evaluate_model(model, data)].  The two arrays are indexed before
    [mean_absolute_error] is called; on numpy scalars scikit-learn's
    validation raises a [TypeError] (a singleton is not a collection; in
    recent versions the error of the parameter validation, which is a
    [TypeError] too). *)
Definition evaluate_model (model : EnhancedGCN) (data : Data) : res Metrics :=
  let model := set_training false model in
  let '(output, _) := forward model (x data) (edge_index data) in
  let predictions := squeeze output in
  let true_values := Vector (y data) in
  do t <- np_getitem true_values (test_idx data);
  do p <- np_getitem predictions (test_idx data);
  match t, p with
  | Vector t, Vector p => compute_metrics p t
  | _, _ => Raise TypeError
  end.

End Training.

(** ** Instances to run the definitions on *)

(** The smallest network: one bias, predicted for every node.  Its loss is
    quadratic in the bias, so the central difference is its exact gradient;
    the optimizer is plain gradient descent with a constant learning rate. *)
Module Bias.
Definition EnhancedGCN : Type := float.
Definition set_training (_ : bool) (model : EnhancedGCN) : EnhancedGCN := model.
Definition forward (model : EnhancedGCN) (x : list (list float)) (_ : list nat * list nat)
    : list float * EnhancedGCN :=
  (map (fun _ => model) x, model).
Definition Optimizer : Type := float.
Definition Gradients : Type := float.
Definition new_optimizer (_ : EnhancedGCN) (lr : R) : Optimizer := Fin lr.
Definition backward (model : EnhancedGCN) (x : list (list float)) (e : list nat * list nat)
    (loss : list float → float) : Gradients :=
  Float.div (Float.sub (loss (forward (Float.add model (Fin 1)) x e).1)
                       (loss (forward (Float.sub model (Fin 1)) x e).1))
            (Fin 2).
Definition optimizer_step (lr : Optimizer) (grads : Gradients) (model : EnhancedGCN)
    : EnhancedGCN * Optimizer :=
  (Float.sub model (Float.mul lr grads), lr).
Definition scheduler_step (optimizer : Optimizer) : Optimizer := optimizer.

Definition train_epoch := train_epoch EnhancedGCN set_training forward Optimizer Gradients
                                      backward optimizer_step scheduler_step.
Definition train_model := train_model EnhancedGCN set_training forward Optimizer Gradients
                                      new_optimizer backward optimizer_step scheduler_step.
Definition fresh_val_loss := fresh_val_loss EnhancedGCN set_training forward.
Definition evaluate_model := evaluate_model EnhancedGCN set_training forward.
End Bias.

(** An encoded graph of [n] nodes without attributes and without edges. *)
Definition blank_data (n : nat) : Data :=
  {| x := replicate n (node_row ∅); edge_index := ([], []); y := replicate n (Fin 0);
     train_idx := []; val_idx := []; test_idx := [] |}.

(** Two nodes with label 1; node 0 is the train split, node 1 the
    validation split. *)
Definition two_nodes : Data :=
  {| x := replicate 2 (node_row ∅); edge_index := ([], []); y := [Fin 1; Fin 1];
     train_idx := [0]; val_idx := [1]; test_idx := [] |}.

(** The same two nodes with an empty train split. *)
Definition two_nodes_no_train : Data :=
  {| x := replicate 2 (node_row ∅); edge_index := ([], []); y := [Fin 1; Fin 1];
     train_idx := []; val_idx := [1]; test_idx := [] |}.

(** One node with label 1 and an empty train split. *)
Definition one_node : Data :=
  {| x := [node_row ∅]; edge_index := ([], []); y := [Fin 1];
     train_idx := []; val_idx := [0]; test_idx := [] |}.

(** The network that returns the [daily_return] feature (column 1) of
    every node as its prediction. *)
Module Echo.
Definition EnhancedGCN : Type := unit.
Definition set_training (_ : bool) (model : EnhancedGCN) : EnhancedGCN := model.
Definition forward (model : EnhancedGCN) (x : list (list float)) (_ : list nat * list nat)
    : list float * EnhancedGCN :=
  (column 1 x, model).
Definition evaluate_model := evaluate_model EnhancedGCN set_training forward.
End Echo.

(** The feature row of a node whose only attribute is [daily_return]. *)
Definition row_of (daily_return : R) : list float :=
  [Fin 0; Fin daily_return; Fin 0; Fin 0; Fin 0].

(** Two test rows with the same label 2, two test rows with the labels 1
    and 2, and one test row. *)
Definition constant_labels : Data :=
  {| x := [row_of 2; row_of 2]; edge_index := ([], []); y := [Fin 2; Fin 2];
     train_idx := []; val_idx := []; test_idx := [0; 1] |}.

Definition varying_labels : Data :=
  {| x := [row_of 1; row_of 2]; edge_index := ([], []); y := [Fin 1; Fin 2];
     train_idx := []; val_idx := []; test_idx := [0; 1] |}.

Definition single_test_row : Data :=
  {| x := [row_of 1; row_of 2]; edge_index := ([], []); y := [Fin 1; Fin 2];
     train_idx := [0]; val_idx := []; test_idx := [1] |}.

(** The chain A -> B -> C. *)
Definition chain : Graph :=
  {| nodes := [("A", {["daily_return" := Fin 1]}); ("B", ∅); ("C", ∅)];
     edges := [("A", "B"); ("B", "C")] |}.

(** The sum of a list of reals. *)
Definition Rsum (l : list R) : R := foldr Rplus 0%R l.

(** ** Tactics to evaluate float expressions *)

(** Decide the comparisons of reals an expression is stuck on. *)
Ltac float_decide :=
  repeat match goal with
  | |- context [Req_dec_T ?a ?b] =>
      destruct (Req_dec_T a b); [try (exfalso; lra)|try (exfalso; lra)]
  | |- context [Rlt_dec ?a ?b] =>
      destruct (Rlt_dec a b); [try (exfalso; lra)|try (exfalso; lra)]
  end.

Ltac float_eval :=
  repeat (cbn; unfold criterion, loss_of, squeeze, tensor_getitem,
            Float.mean, Float.sum, Float.of_nat, Float.scale_inf,
            Bias.backward, Bias.forward, Bias.set_training, Bias.optimizer_step,
            Bias.scheduler_step, Bias.new_optimizer; cbn; float_decide).

(** ** The script's main execution *)

Section Script.

Variable RandomState : Type.
Variable seeded : Z → RandomState.
Variable permutation : RandomState → nat → list nat * RandomState.
Variable EnhancedGCN : Type.
Variable set_training : bool → EnhancedGCN → EnhancedGCN.
Variable forward : EnhancedGCN → list (list float) → list nat * list nat →
                   list float * EnhancedGCN.
Variable Optimizer : Type.
Variable Gradients : Type.
Variable new_optimizer : EnhancedGCN → R → Optimizer.
Variable backward : EnhancedGCN → list (list float) → list nat * list nat →
                    (list float → float) → Gradients.
Variable optimizer_step : Optimizer → Gradients → EnhancedGCN → EnhancedGCN * Optimizer.
Variable scheduler_step : Optimizer → Optimizer.
(** [EnhancedGCN(in_channels, hidden_channels, out_channels)] *)
Variable new_model : nat → nat → nat → EnhancedGCN.

(** The module-level statements of the script before the network is
    built (lines 46 to 65): the graph read from the GML file is encoded,
    preprocessed and split. *)
Definition prepare (graph : Graph) (global : RandomState) : res Data :=
  do data <- nx_to_pyg_data graph;
  do data <- preprocess data;
  match Double.split_data RandomState seeded permutation data
                          Double.default_train_ratio Double.default_val_ratio global with
  | (Raise e, _) => Raise e
  | (Ok (train, val, test), _) =>
      Ok {| x := x data; edge_index := edge_index data; y := y data;
            train_idx := train; val_idx := val; test_idx := test |}
  end.

(** The main execution (lines 150 to 156), on the data prepared: the
    network is built, trained and evaluated. *)
Definition main_execution (data : Data) : res Metrics :=
  let in_channels := length (default [] (head (x data))) in
  let hidden_channels := 32 in
  let out_channels := 1 in
  let gcn_model := new_model in_channels hidden_channels out_channels in
  do (trained_model, _) <-
    train_model EnhancedGCN set_training forward Optimizer Gradients new_optimizer
                backward optimizer_step scheduler_step gcn_model data 100 (1 / 100);
  evaluate_model EnhancedGCN set_training forward trained_model data.

(** The script, from the graph to the metrics it prints. *)
Definition main (graph : Graph) (global : RandomState) : res Metrics :=
  do data <- prepare graph global;
  main_execution data.

End Script.

(** ** The sequence pipeline ([Baseline/LSTM/main.py]) *)

Module LSTM.

(** [MinMaxScaler(feature_range=(0, 1))] fitted on one column of finite
    prices. *)
Record MinMaxScaler : Type := {
  data_min_ : R;
  data_max_ : R;
  scale_ : R;
  min_ : R
}.

(** [scaler.fit]: an empty column is rejected; a zero range counts as 1. *)
Definition fit (prices : list R) : res MinMaxScaler :=
  match prices with
  | [] => Raise ValueError
  | p :: rest =>
      let data_min := foldl Rmin p rest in
      let data_max := foldl Rmax p rest in
      let data_range := (data_max - data_min)%R in
      let scale := ((1 - 0) / (if Req_dec_T data_range 0 then 1 else data_range))%R in
      Ok {| data_min_ := data_min; data_max_ := data_max;
            scale_ := scale; min_ := (0 - data_min * scale)%R |}
  end.

Definition transform (scaler : MinMaxScaler) (v : R) : R :=
  (v * scale_ scaler + min_ scaler)%R.

Definition inverse_transform (scaler : MinMaxScaler) (v : R) : R :=
  ((v - min_ scaler) / scale_ scaler)%R.

(** [a[lo:hi]] for [0 <= lo <= hi]. *)
Definition slice {A} (lo hi : nat) (a : list A) : list A := take (hi - lo) (drop lo a).

(** [load_and_preprocess_data], from the column of closing prices read
    from the file: the windows, their targets and the scaler.  The
    [reshape] reads the second dimension of the window array, which an
    empty array does not have. *)
Definition load_and_preprocess_data (prices : list R) (sequence_length : nat)
    : res (list (list R) * list R * MinMaxScaler) :=
  do scaler <- fit prices;
  let prices_scaled := map (transform scaler) prices in
  let range := seq sequence_length (length prices_scaled - sequence_length) in
  let X := map (fun i => slice (i - sequence_length) i prices_scaled) range in
  let y := omap (fun i => prices_scaled !! i) range in
  if decide (X = []) then Raise IndexError
  else Ok (X, y, scaler).

(** [split_index = int(len(X) * 0.8)] *)
Definition split_index (n : nat) : nat :=
  Z.to_nat (int_of (inject_Z (Z.of_nat n) * (8 # 10))).

(** [X[:split_index], X[split_index:]] *)
Definition train_test {A} (X : list A) : list A * list A :=
  (take (split_index (length X)) X, drop (split_index (length X)) X).

(** [np.mean(np.sign(actual_diff) == np.sign(predicted_diff)) * 100] *)
Definition directional_accuracy (y_test_rescaled predictions_rescaled : list float) : float :=
  let actual_diff := deltas y_test_rescaled in
  let predicted_diff := deltas predictions_rescaled in
  Float.mul
    (Float.mean (zip_with (fun a p => Float.of_bool (Float.eqb (Float.sign a) (Float.sign p)))
                          actual_diff predicted_diff))
    (Fin 100).

(** [np.mean((np.sign(actual_diff) == np.sign(predicted_diff))
             & (np.sign(predicted_diff) != 0)) * 100] *)
Definition hit_rate (y_test_rescaled predictions_rescaled : list float) : float :=
  let actual_diff := deltas y_test_rescaled in
  let predicted_diff := deltas predictions_rescaled in
  Float.mul
    (Float.mean (zip_with (fun a p => Float.of_bool
                                        (Float.eqb (Float.sign a) (Float.sign p)
                                         && negb (Float.eqb (Float.sign p) (Fin 0))))
                          actual_diff predicted_diff))
    (Fin 100).

End LSTM.

(** ** Further inputs to run the definitions on *)

(** [two_nodes] with the other node in the validation split. *)
Definition two_nodes_other_val : Data :=
  {| x := x two_nodes; edge_index := edge_index two_nodes; y := y two_nodes;
     train_idx := train_idx two_nodes; val_idx := [0]; test_idx := test_idx two_nodes |}.

(** [two_nodes] with a train index past the last row. *)
Definition two_nodes_train_past_end : Data :=
  {| x := x two_nodes; edge_index := edge_index two_nodes; y := y two_nodes;
     train_idx := [0; 2]; val_idx := val_idx two_nodes; test_idx := test_idx two_nodes |}.

(** Two test rows, the first with label 0. *)
Definition zero_label : Data :=
  {| x := [row_of 0; row_of 1]; edge_index := ([], []); y := [Fin 0; Fin 1];
     train_idx := []; val_idx := []; test_idx := [0; 1] |}.

(** ** Encoding: the node loop *)

Lemma nodes_loop_from (ns : list (string * gmap string float)) (k : nat)
    (f : list (list float)) (l : list float) (m : gmap string nat) :
  let r := foldl nodes_step (f, l, m) (zip (seq k (length ns)) ns) in
  r.1.1 = f ++ map (fun nd => node_row nd.2) ns ∧
  r.1.2 = l ++ map (fun nd => data_get nd.2 "daily_return") ns ∧
  (∀ name i, r.2 !! name = Some i →
     ((name ∉ (ns.*1)) ∧ m !! name = Some i) ∨ (k ≤ i ∧ ns.*1 !! (i - k) = Some name)) ∧
  (∀ name, name ∈ (ns.*1) → is_Some (r.2 !! name)).
Proof.
  revert k f l m. induction ns as [|[node data] ns IH]; intros k f l m; simpl.
  - rewrite !app_nil_r. repeat split; auto.
    + intros name i H. left. split; [apply not_elem_of_nil|done].
    + intros name H. by apply elem_of_nil in H.
  - specialize (IH (S k) (f ++ [node_row data]) (l ++ [data_get data "daily_return"])
                   (<[node:=k]> m)).
    simpl in IH. destruct IH as (Hf & Hl & Hm & Hin).
    rewrite Hf, Hl, <- !app_assoc. simpl. repeat split; auto.
    + intros name i H. destruct (Hm name i H) as [[Hn Hl']|[Hk Hl']].
      * destruct (decide (node = name)) as [Heq|Hne].
        -- subst node. rewrite lookup_insert_eq in Hl'. inversion Hl'; subst.
           right. split; [lia|]. by rewrite Nat.sub_diag.
        -- rewrite lookup_insert_ne in Hl' by done. left. split; [|done].
           rewrite not_elem_of_cons. auto.
      * right. split; [lia|]. replace (i - k) with (S (i - S k)) by lia. done.
    + intros name H. apply elem_of_cons in H as [Heq|H]; [|by apply Hin].
      simpl in Heq. subst name.
      destruct (decide (node ∈ (ns.*1))) as [Hn|Hn]; [by apply Hin|].
      clear -Hn. revert Hn. generalize (S k) (f ++ [node_row data])
        (l ++ [data_get data "daily_return"]).
      assert (is_Some ((<[node:=k]> m) !! node)) as Hs
        by (rewrite lookup_insert_eq; eauto).
      revert Hs. generalize (<[node:=k]> m).
      induction ns as [|[node' data'] ns IH]; intros m0 Hs k0 f0 l0 Hn; simpl; [done|].
      simpl in Hn. apply not_elem_of_cons in Hn as [Hne Hn].
      apply IH; [|done]. by rewrite lookup_insert_ne.
Qed.

Lemma nodes_loop_spec (ns : list (string * gmap string float)) :
  (nodes_loop ns).1.1 = map (fun nd => node_row nd.2) ns ∧
  (nodes_loop ns).1.2 = map (fun nd => data_get nd.2 "daily_return") ns ∧
  (∀ name i, (nodes_loop ns).2 !! name = Some i → ns.*1 !! i = Some name) ∧
  (∀ name, name ∈ (ns.*1) ↔ is_Some ((nodes_loop ns).2 !! name)).
Proof.
  destruct (nodes_loop_from ns 0 [] [] ∅) as (Hf & Hl & Hm & Hin).
  unfold nodes_loop, enumerate. repeat split; auto.
  - intros name i H. destruct (Hm name i H) as [[_ He]|[_ Hl']].
    + by rewrite lookup_empty in He.
    + by rewrite Nat.sub_0_r in Hl'.
  - intros [i Hi]. destruct (Hm name i Hi) as [[_ He]|[_ Hl']].
    + by rewrite lookup_empty in He.
    + eapply list_elem_of_lookup_2. exact Hl'.
Qed.

(** ** Encoding: the edge loop *)

Lemma edges_loop_ok (m : gmap string nat) (es : list (string * string)) :
  (∀ u v, (u, v) ∈ es → is_Some (m !! u) ∧ is_Some (m !! v)) →
  ∃ l, edges_loop m es = Ok l ∧
       Forall2 (fun e p => m !! e.1 = Some p.1 ∧ m !! e.2 = Some p.2) es l.
Proof.
  induction es as [|[src dst] es IH]; intros H; simpl.
  - exists []. split; [done|constructor].
  - destruct (H src dst) as [[s Hs] [d Hd]]; [left|].
    destruct IH as (l & Hl & Hall).
    { intros u v Huv. apply H. by right. }
    exists ((s, d) :: l). unfold getitem. rewrite Hs, Hd. simpl. rewrite Hl. simpl.
    split; [done|]. constructor; [by split|done].
Qed.

(** ** Claims on the encoding *)

(** C9. The label vector the encoding produces is column 1 (the
    [daily_return] column) of the feature matrix it produces, row for row:
    the prediction target is also an input feature. *)
Theorem labels_are_feature_column_1 (graph : Graph) (data : Data) :
  nx_to_pyg_data graph = Ok data →
  y data = column 1 (x data) ∧ length (y data) = length (x data).
Proof.
  unfold nx_to_pyg_data. destruct (nodes_loop_spec (nodes graph)) as (Hf & Hl & _).
  destruct (nodes_loop (nodes graph)) as [[f l] m]. simpl in Hf, Hl.
  destruct (edges_loop m (edges graph)) as [ei|e]; simpl; [|done].
  intros [= <-]. simpl. subst f l. split; [|by rewrite !length_map].
  unfold column. induction (nodes graph) as [|nd ns IH]; simpl; [done|]. by rewrite IH.
Qed.

(** ** Lemmas on index arrays *)

Lemma index_select_in_range {A} (d : A) (a : list A) (idx : list nat) :
  Forall (fun i => i < length a) idx →
  index_select a idx = Ok (map (fun i => nth i a d) idx).
Proof.
  induction 1 as [|i idx Hi _ IH]; simpl; [done|].
  destruct (lookup_lt_is_Some_2 a i Hi) as [v Hv].
  rewrite Hv, IH. simpl. by rewrite (nth_lookup_Some _ _ d _ Hv).
Qed.

Lemma map_nth_arange (n : nat) (idx : list nat) :
  Forall (fun i => i < n) idx → map (fun i => nth i (seq 0 n) 0) idx = idx.
Proof.
  intros H. etrans; [|apply map_id]. apply map_ext_Forall.
  eapply Forall_impl; [exact H|]. intros i Hi. simpl in Hi. by rewrite seq_nth.
Qed.

Lemma map_nth_seq (a : list nat) : map (fun i => nth i a 0) (seq 0 (length a)) = a.
Proof.
  apply list_eq. intros i. rewrite list_lookup_fmap.
  destruct (decide (i < length a)) as [Hi|Hi].
  - rewrite lookup_seq_lt by done. simpl.
    destruct (lookup_lt_is_Some_2 a i Hi) as [v Hv].
    by rewrite Hv, (nth_lookup_Some _ _ 0 _ Hv).
  - rewrite lookup_seq_ge by lia. simpl. symmetry. apply lookup_ge_None. lia.
Qed.

Lemma map_nth_Permutation (a p : list nat) :
  p ≡ₚ seq 0 (length a) → map (fun i => nth i a 0) p ≡ₚ a.
Proof.
  intros H. etrans; [apply (fmap_Permutation _ _ _ H)|]. by rewrite map_nth_seq.
Qed.

Lemma Permutation_seq_range (p : list nat) (n : nat) :
  p ≡ₚ seq 0 n → Forall (fun i => i < n) p.
Proof.
  intros H. apply Forall_forall. intros i Hi.
  rewrite H in Hi. apply elem_of_seq in Hi. lia.
Qed.

Lemma index_select_length {A} (a : list A) (idx : list nat) (l : list A) :
  index_select a idx = Ok l → length l = length idx.
Proof.
  revert l. induction idx as [|i idx IH]; intros l; simpl.
  - by intros [= <-].
  - destruct (a !! i) as [v|]; [|done].
    destruct (index_select a idx) as [vs|]; [|done]. simpl.
    intros [= <-]. simpl. by rewrite (IH vs).
Qed.

(** ** The Partitioner with exact sizes *)

Lemma inject_nat_nonneg (n : nat) : (0 <= inject_Z (Z.of_nat n))%Q.
Proof. unfold Qle. simpl. lia. Qed.

Lemma inject_Z_pos (z : Z) : (0 < z)%Z → (0 < inject_Z z)%Q.
Proof. intros H. unfold Qlt. simpl. lia. Qed.

Lemma Qceiling_nonneg (q : Q) : (0 <= q)%Q → (0 <= Qceiling q)%Z.
Proof. intros H. rewrite <- (Qceiling_Z 0). by apply Qceiling_resp_le. Qed.

Lemma validate_shuffle_split_ok (n : nat) (test_size : Q) :
  (0 < test_size)%Q → (test_size < 1)%Q →
  (Qceiling (test_size * inject_Z (Z.of_nat n)) < Z.of_nat n)%Z →
  validate_shuffle_split n test_size =
    Ok (n - Z.to_nat (Qceiling (test_size * inject_Z (Z.of_nat n))),
        Z.to_nat (Qceiling (test_size * inject_Z (Z.of_nat n)))).
Proof.
  intros H0 H1 Hlt. unfold validate_shuffle_split.
  destruct (Qle_bool test_size 0) eqn:E0.
  { apply Qle_bool_iff in E0. exfalso. exact (Qlt_not_le _ _ H0 E0). }
  destruct (Qle_bool 1 test_size) eqn:E1.
  { apply Qle_bool_iff in E1. exfalso. exact (Qlt_not_le _ _ H1 E1). }
  cbn [orb]. destruct (decide _) as [Hz|Hz]; [|done].
  assert (0 <= Qceiling (test_size * inject_Z (Z.of_nat n)))%Z; [|lia].
  apply Qceiling_nonneg, Qmult_le_0_compat; [by apply Qlt_le_weak|].
  apply inject_nat_nonneg.
Qed.

Lemma validate_shuffle_split_range (n : nat) (test_size : Q) :
  (test_size <= 0)%Q ∨ (1 <= test_size)%Q →
  validate_shuffle_split n test_size = Raise ValueError.
Proof.
  intros H. unfold validate_shuffle_split.
  destruct H as [H|H]; apply Qle_bool_iff in H; rewrite H; [done|].
  by rewrite orb_true_r.
Qed.

Lemma Qceiling_pos (q : Q) : (0 < q)%Q → (0 < Qceiling q)%Z.
Proof.
  intros H. rewrite Zlt_Qlt. eapply Qlt_le_trans; [exact H|apply Qle_ceiling].
Qed.

Lemma Qceiling_div_mult (a b : Z) :
  b ≠ 0%Z → Qceiling (inject_Z a / inject_Z b * inject_Z b) = a.
Proof.
  intros Hb. rewrite <- (Qceiling_Z a) at 2. apply Qceiling_comp.
  rewrite Qmult_comm. apply Qmult_div_r.
  intros H. apply Hb. unfold Qeq in H. simpl in H. lia.
Qed.

Section PartitionerProofs.

Variable RandomState : Type.
Variable seeded : Z → RandomState.
Variable permutation : RandomState → nat → list nat * RandomState.

Hypothesis permutation_perm : ∀ g n, (permutation g n).1 ≡ₚ seq 0 n.

Lemma permutation_length g n : length (permutation g n).1 = n.
Proof. by rewrite permutation_perm, length_seq. Qed.

(** A seeded split: the selected rows, and the global generator is left
    as it was. *)
Lemma train_test_split_seeded (a : list nat) (test_size : Q) (seed : Z)
    (global : RandomState) (n_train n_test : nat) :
  validate_shuffle_split (length a) test_size = Ok (n_train, n_test) →
  n_train + n_test = length a →
  let p := (permutation (seeded seed) (length a)).1 in
  train_test_split RandomState seeded permutation a test_size (Some seed) global =
    (Ok (map (fun i => nth i a 0) (drop n_test p),
         map (fun i => nth i a 0) (take n_test p)), global).
Proof.
  intros Hv Hlen p. unfold train_test_split. rewrite Hv. simpl.
  pose proof (permutation_perm (seeded seed) (length a)) as Hp.
  pose proof (permutation_length (seeded seed) (length a)) as Hl.
  subst p. destruct (permutation (seeded seed) (length a)) as [perm rng']. simpl in *.
  assert (Forall (fun i => i < length a) perm) as Hr by by apply Permutation_seq_range.
  rewrite (take_ge (drop n_test perm)) by (rewrite length_drop; lia).
  rewrite (index_select_in_range 0) by by apply Forall_drop.
  simpl. rewrite (index_select_in_range 0) by by apply Forall_take.
  done.
Qed.

Lemma train_test_split_raise {A} (a : list A) (test_size : Q) (random_state : option Z)
    (global : RandomState) (e : exn) :
  validate_shuffle_split (length a) test_size = Raise e →
  train_test_split RandomState seeded permutation a test_size random_state global =
    (Raise e, global).
Proof. intros Hv. unfold train_test_split. by rewrite Hv. Qed.

(** The first split of [split_data]. *)
Lemma first_split (n : nat) (train_ratio : Q) (global : RandomState) :
  (0 < train_ratio)%Q → (train_ratio < 1)%Q → (pool_size n train_ratio < Z.of_nat n)%Z →
  let p := (permutation (seeded 42) n).1 in
  let pool := Z.to_nat (pool_size n train_ratio) in
  train_test_split RandomState seeded permutation (seq 0 n) (1 - train_ratio)
                   (Some 42%Z) global =
    (Ok (drop pool p, take pool p), global) ∧ length (take pool p) = pool ∧ 0 < pool.
Proof.
  intros H0 H1 Hlt p pool. unfold pool_size in *.
  assert (0 < 1 - train_ratio)%Q as Hts0 by Lqa.lra.
  assert (1 - train_ratio < 1)%Q as Hts1 by Lqa.lra.
  assert (0 < n) as Hn.
  { assert (0 <= Qceiling ((1 - train_ratio) * inject_Z (Z.of_nat n)))%Z; [|lia].
    apply Qceiling_nonneg, Qmult_le_0_compat; [by apply Qlt_le_weak|].
    apply inject_nat_nonneg. }
  assert (0 < Qceiling ((1 - train_ratio) * inject_Z (Z.of_nat n)))%Z as Hpos.
  { apply Qceiling_pos. apply Qmult_lt_0_compat; [done|]. apply inject_Z_pos. lia. }
  pose proof (permutation_perm (seeded 42) n) as Hp.
  pose proof (permutation_length (seeded 42) n) as Hl.
  rewrite (train_test_split_seeded (seq 0 n) (1 - train_ratio) 42 global
             (n - pool) pool).
  - rewrite length_seq. fold p. split; [|split].
    + rewrite !map_nth_arange; [done| |].
      * by apply Forall_take, Permutation_seq_range.
      * by apply Forall_drop, Permutation_seq_range.
    + rewrite length_take. subst p pool. lia.
    + subst pool. lia.
  - rewrite length_seq. by apply validate_shuffle_split_ok.
  - rewrite length_seq. subst pool. lia.
Qed.

Lemma train_test_split_global {A} (a : list A) (test_size : Q) (seed : Z)
    (g g' : RandomState) :
  (train_test_split RandomState seeded permutation a test_size (Some seed) g).1 =
  (train_test_split RandomState seeded permutation a test_size (Some seed) g').1 ∧
  (train_test_split RandomState seeded permutation a test_size (Some seed) g).2 = g.
Proof.
  unfold train_test_split. destruct (validate_shuffle_split _ _) as [[n_train n_test]|e];
    [|done]. simpl. by destruct (permutation _ _).
Qed.

(** A split that returns never has an empty train part: the library
    raises instead. *)
Lemma train_test_split_train_nonempty (a : list nat) (test_size : Q)
    (random_state : option Z) (g g' : RandomState) (train test : list nat) :
  train_test_split RandomState seeded permutation a test_size random_state g
    = (Ok (train, test), g') →
  train ≠ [].
Proof.
  unfold train_test_split, validate_shuffle_split.
  destruct (Qle_bool test_size 0 || Qle_bool 1 test_size); [done|].
  destruct (decide _) as [|Hne]; [done|].
  pose proof (permutation_length (check_random_state RandomState seeded random_state g)
                (length a)) as Hlen.
  destruct (permutation _ _) as [perm rng']. simpl in Hlen.
  destruct (index_select a (take _ (drop _ perm))) as [tr|] eqn:E; [|done].
  destruct (index_select a (take _ perm)) as [te|]; [|done]. simpl.
  intros [= <- <- _] ->. apply index_select_length in E.
  rewrite length_take, length_drop in E. simpl in E. lia.
Qed.

Lemma split_data_train_nonempty (data : Data) (train_ratio val_ratio : Q)
    (g g' : RandomState) (train val test : list nat) :
  split_data RandomState seeded permutation data train_ratio val_ratio g
    = (Ok (train, val, test), g') →
  train ≠ [].
Proof.
  unfold split_data.
  destruct (train_test_split _ _ _ (seq 0 (num_nodes data)) _ _ g)
    as [[[train0 test0]|] g1] eqn:E; [|done].
  destruct (decide _); [done|].
  destruct (train_test_split _ _ _ test0 _ _ g1) as [[[val0 test1]|] g2]; [|done].
  intros [= <- _ _ _]. by eapply train_test_split_train_nonempty.
Qed.

(** C10. [split_data] has no seed parameter and seeds both shuffles with
    the constant 42: its result is the same for any two encoded graphs with
    the same number of nodes and any two states of the global generator
    (however the caller seeded it), and it leaves the global generator as it
    found it. *)
Theorem split_data_fixed_seed (data1 data2 : Data) (train_ratio val_ratio : Q)
    (global1 global2 : RandomState) :
  num_nodes data1 = num_nodes data2 →
  (split_data RandomState seeded permutation data1 train_ratio val_ratio global1).1 =
  (split_data RandomState seeded permutation data2 train_ratio val_ratio global2).1 ∧
  (split_data RandomState seeded permutation data1 train_ratio val_ratio global1).2 = global1.
Proof.
  intros Hn. unfold split_data. rewrite <- Hn.
  set (a := seq 0 (num_nodes data1)).
  destruct (train_test_split_global a (1 - train_ratio) 42 global1 global2) as [H1 H2].
  destruct (train_test_split_global a (1 - train_ratio) 42 global2 global1) as [_ H3].
  destruct (train_test_split _ _ _ a _ _ global1) as [r1 g1'].
  destruct (train_test_split _ _ _ a _ _ global2) as [r2 g2'].
  simpl in *. subst. destruct r2 as [[train test]|e]; [|done].
  destruct (decide _); [done|].
  set (ts := (_ / _)%Q).
  destruct (train_test_split_global test ts 42 global1 global2) as [H1 H2].
  destruct (train_test_split _ _ _ test _ _ global1) as [r1 g1'].
  destruct (train_test_split _ _ _ test _ _ global2) as [r2 g2'].
  simpl in *. subst. by destruct r2 as [[val test']|e].
Qed.

End PartitionerProofs.

(** ** The Partitioner in double precision *)

Lemma binary_round_aux_signed (s : bool) (m e : Z) (l : SpecFloat.location) :
  Double.signed s (SpecFloat.binary_round_aux Double.prec Double.emax s m e l).
Proof.
  unfold Double.signed, SpecFloat.binary_round_aux.
  destruct (SpecFloat.shr_fexp _ _ m e l) as [mrs' e'].
  destruct (SpecFloat.shr_fexp _ _ _ e' _) as [mrs'' e''].
  destruct (SpecFloat.shr_m mrs'') as [|m'|m']; [by left| |by right; right; left].
  destruct (_ <=? _)%Z; [right; right; right; by eexists _, _|right; by left].
Qed.

Lemma of_Z_signed (z : Z) :
  (z < 0 → Double.signed true (Double.of_Z z))%Z ∧
  (0 < z → Double.signed false (Double.of_Z z))%Z.
Proof.
  unfold Double.of_Z, SpecFloat.binary_normalize, SpecFloat.binary_round.
  destruct z as [|m|m]; split; try lia; intros _;
    destruct (SpecFloat.shl_align _ _ _) as [mz ez]; apply binary_round_aux_signed.
Qed.

Lemma div_signed (s1 s2 : bool) (x y : Double.double) :
  Double.signed s1 x → Double.signed s2 y → Double.signed (xorb s1 s2) (Double.div x y).
Proof.
  unfold Double.div, SpecFloat.SFdiv.
  intros [->|[->|[->|(m1 & e1 & ->)]]] [->|[->|[->|(m2 & e2 & ->)]]];
    try (by left); try (by right; left); try (by right; right; left).
  destruct (SpecFloat.SFdiv_core_binary _ _ _ _ _ _) as [[mz ez] lz].
  apply binary_round_aux_signed.
Qed.

Lemma leb_negative (x : Double.double) :
  Double.signed true x → x = SpecFloat.S754_nan ∨ Double.leb x (Double.of_Z 0) = true.
Proof. intros [->|[->|[->|(m & e & ->)]]]; [by right|by right|by left|by right]. Qed.

(** A negative quotient is rejected as a test size. *)
Lemma validate_shuffle_split_negative (n : nat) (a b : Z) :
  (a < 0)%Z → (0 < b)%Z →
  Double.validate_shuffle_split n (Double.Fraction (Double.div (Double.of_Z a) (Double.of_Z b)))
                                None = Raise ValueError.
Proof.
  intros Ha Hb. unfold Double.validate_shuffle_split.
  destruct (leb_negative (Double.div (Double.of_Z a) (Double.of_Z b))) as [-> | ->]; [| |done].
  - apply (div_signed true false); [by apply of_Z_signed|by apply of_Z_signed].
  - done.
Qed.

(** What the library's two validations leave: both parts have at least
    one sample. *)
Lemma shuffle_split_sizes_inv (n : nat) (test_size : Double.double) (n_train n_test : Z) :
  Double.shuffle_split_sizes n test_size = Ok (n_train, n_test) →
  (0 < n_test < Z.of_nat n)%Z ∧ (n_train = Z.of_nat n - n_test)%Z.
Proof.
  unfold Double.shuffle_split_sizes, Double.validate_shuffle_split.
  destruct (_ || _); [done|].
  destruct (Double.ceil _) as [t|]; [|done]. cbn [bind].
  destruct (_ <? _)%Z; [done|]. destruct (decide _) as [|Hne]; [done|]. cbn [bind].
  destruct (Z.of_nat n <=? t)%Z eqn:E1; [done|]. destruct (t <=? 0)%Z eqn:E2; [done|].
  cbn [orb].
  destruct (Z.of_nat n <=? Z.of_nat n - t)%Z eqn:E3; [done|].
  destruct (Z.of_nat n - t <=? 0)%Z eqn:E4; [done|]. cbn [orb bind].
  destruct (_ <? _)%Z; [done|]. destruct (decide _); [done|].
  intros [= <- <-]. rewrite Z.leb_gt in E1, E2. lia.
Qed.

(** The library raises [ValueError], or the [OverflowError] of a
    conversion of an infinity to an integer. *)
Lemma shuffle_split_sizes_raise (n : nat) (test_size : Double.double) (e : exn) :
  Double.shuffle_split_sizes n test_size = Raise e → e = ValueError ∨ e = OverflowError.
Proof.
  unfold Double.shuffle_split_sizes, Double.validate_shuffle_split.
  destruct (_ || _); [intros [= <-]; by left|].
  destruct (Double.ceil _) as [t|e'] eqn:Ec.
  2:{ cbn [bind]. intros [= <-]. unfold Double.ceil in Ec.
      destruct (Double.mul _ _); inversion Ec; auto. }
  cbn [bind].
  destruct (_ <? _)%Z; [intros [= <-]; by left|].
  destruct (decide _); [intros [= <-]; by left|]. cbn [bind].
  destruct (_ || _); [intros [= <-]; by left|].
  destruct (_ || _); [intros [= <-]; by left|]. cbn [bind].
  destruct (_ <? _)%Z; [intros [= <-]; by left|].
  destruct (decide _); [intros [= <-]; by left|done].
Qed.

Section DoublePartitionerProofs.

Variable RandomState : Type.
Variable seeded : Z → RandomState.
Variable permutation : RandomState → nat → list nat * RandomState.

Hypothesis permutation_perm : ∀ g n, (permutation g n).1 ≡ₚ seq 0 n.

Local Abbreviation train_test_split :=
  (Double.train_test_split RandomState seeded permutation).
Local Abbreviation split_data := (Double.split_data RandomState seeded permutation).

(** A seeded split that passes the validations: the rows selected, and
    the global generator is left as it was. *)
Lemma double_train_test_split_seeded (a : list nat) (test_size : Double.double) (seed : Z)
    (global : RandomState) (n_train n_test : Z) :
  Double.shuffle_split_sizes (length a) test_size = Ok (n_train, n_test) →
  let p := (permutation (seeded seed) (length a)).1 in
  let t := Z.to_nat n_test in
  train_test_split a test_size (Some seed) global =
    (Ok (map (fun i => nth i a 0) (drop t p), map (fun i => nth i a 0) (take t p)), global) ∧
  0 < t < length a ∧ Z.to_nat n_train = length a - t.
Proof.
  intros Hv p t. destruct (shuffle_split_sizes_inv _ _ _ _ Hv) as [Ht Htr].
  unfold Double.train_test_split. rewrite Hv. simpl.
  pose proof (permutation_perm (seeded seed) (length a)) as Hp.
  pose proof (permutation_length RandomState permutation permutation_perm
                (seeded seed) (length a)) as Hl.
  subst p t. destruct (permutation (seeded seed) (length a)) as [perm rng']. simpl in *.
  assert (Forall (fun i => i < length a) perm) as Hr by by apply Permutation_seq_range.
  rewrite (take_ge (drop _ perm)) by (rewrite length_drop; lia).
  rewrite (index_select_in_range 0) by by apply Forall_drop.
  simpl. rewrite (index_select_in_range 0) by by apply Forall_take.
  split; [done|]. lia.
Qed.

Lemma double_train_test_split_raise {A} (a : list A) (test_size : Double.double)
    (random_state : option Z) (global : RandomState) (e : exn) :
  Double.shuffle_split_sizes (length a) test_size = Raise e →
  train_test_split a test_size random_state global = (Raise e, global).
Proof. intros Hv. unfold Double.train_test_split. by rewrite Hv. Qed.

(** The first split of [split_data] on [arange(n)]. *)
Lemma double_first_split (n : nat) (test_size : Double.double) (global : RandomState)
    (n_train pool : Z) :
  Double.shuffle_split_sizes n test_size = Ok (n_train, pool) →
  let p := (permutation (seeded 42) n).1 in
  let t := Z.to_nat pool in
  train_test_split (seq 0 n) test_size (Some 42%Z) global =
    (Ok (drop t p, take t p), global) ∧
  length (take t p) = t ∧ length (drop t p) = Z.to_nat n_train ∧ 0 < t < n.
Proof.
  intros Hv p t.
  pose proof (permutation_perm (seeded 42) n) as Hp.
  pose proof (permutation_length RandomState permutation permutation_perm
                (seeded 42) n) as Hl.
  destruct (double_train_test_split_seeded (seq 0 n) test_size 42 global n_train pool)
    as (E & Ht & Htr); [by rewrite length_seq|].
  rewrite length_seq in E, Ht, Htr. fold p t in E, Ht.
  rewrite !map_nth_arange in E.
  - split; [done|]. rewrite length_take, length_drop. subst p t. lia.
  - by apply Forall_take, Permutation_seq_range.
  - by apply Forall_drop, Permutation_seq_range.
Qed.

(** [split_data] against the sizes it computes: it returns parts of
    these sizes when every validation passes, and raises the exception of
    the failing step otherwise. *)
Lemma double_split_data_cases (data : Data) (train_ratio val_ratio : Double.double) :
  let n := num_nodes data in
  match Double.split_sizes n train_ratio val_ratio with
  | Ok (n_train, n_val, n_test) =>
      ∃ train val test,
        (∀ global, split_data data train_ratio val_ratio global
                   = (Ok (train, val, test), global)) ∧
        length train = n_train ∧ length val = n_val ∧ length test = n_test ∧
        NoDup (train ++ val ++ test) ∧
        (∀ i, i ∈ train ++ val ++ test ↔ i < n)
  | Raise e =>
      (∀ global, split_data data train_ratio val_ratio global = (Raise e, global)) ∧
      (e = ValueError ∨ e = OverflowError)
  end.
Proof.
  intros n. unfold Double.split_sizes, Double.split_data. fold n.
  set (ts := Double.sub (Double.of_Z 1) train_ratio).
  destruct (Double.shuffle_split_sizes n ts) as [[n_train pool]|e] eqn:E1; cbn [bind].
  2:{ split; [|by eapply shuffle_split_sizes_raise].
      intros global. rewrite double_train_test_split_raise with (e := e); [done|].
      by rewrite length_seq. }
  set (p := (permutation (seeded 42) n).1).
  set (t := Z.to_nat pool).
  pose proof (fun global => double_first_split n ts global n_train pool E1) as Hfs.
  cbv zeta in Hfs. fold p t in Hfs.
  destruct (Hfs (seeded 0)) as (_ & Hlt & Hld & Ht).
  rewrite length_seq.
  destruct (Double.int_of _) as [k|e] eqn:Ek; cbn [bind].
  2:{ split.
      - intros global. by destruct (Hfs global) as (-> & _).
      - unfold Double.int_of in Ek. destruct (Double.mul _ _); inversion Ek; auto. }
  destruct (decide (t = 0)) as [|_]; [lia|].
  set (a := take t p) in *.
  set (ts2 := Double.div (Double.of_Z (pool - k)) (Double.of_nat t)).
  destruct (Double.shuffle_split_sizes t ts2) as [[n_val n_test]|e] eqn:E2; cbn [bind].
  2:{ split; [|by eapply shuffle_split_sizes_raise].
      intros global. destruct (Hfs global) as (-> & _).
      destruct (decide (length a = 0)) as [|_]; [lia|].
      rewrite Hlt. replace (Z.of_nat t) with pool by (subst t; lia). fold ts2.
      rewrite double_train_test_split_raise with (e := e); [done|by rewrite Hlt]. }
  set (p2 := (permutation (seeded 42) (length a)).1).
  set (t2 := Z.to_nat n_test).
  set (f := fun i => nth i a 0).
  rewrite <- Hlt in E2.
  pose proof (fun global => double_train_test_split_seeded a ts2 42 global n_val n_test E2)
    as Hss. cbv zeta in Hss. fold p2 t2 f in Hss.
  destruct (Hss (seeded 0)) as (_ & Ht2 & Hval).
  exists (drop t p), (f <$> drop t2 p2), (f <$> take t2 p2).
  assert (p2 ≡ₚ seq 0 (length a)) as Hp2 by apply permutation_perm.
  assert (length p2 = length a) as Hl2 by by rewrite Hp2, length_seq.
  assert (drop t p ++ (f <$> drop t2 p2) ++ (f <$> take t2 p2) ≡ₚ seq 0 n) as Hperm.
  { rewrite (Permutation_app_comm (f <$> drop t2 p2)), <- fmap_app, take_drop.
    unfold f. rewrite (map_nth_Permutation a p2 Hp2).
    subst a. rewrite Permutation_app_comm, take_drop. apply permutation_perm. }
  split; [|split; [|split; [|split; [|split]]]].
  - intros global. destruct (Hfs global) as (-> & _).
    destruct (decide (length a = 0)) as [|_]; [lia|].
    rewrite Hlt at 1 2. replace (Z.of_nat t) with pool by (subst t; lia). fold ts2.
    by destruct (Hss global) as (-> & _).
  - done.
  - rewrite length_fmap, length_drop. lia.
  - rewrite length_fmap, length_take. lia.
  - rewrite Hperm. apply NoDup_seq.
  - intros i. rewrite Hperm, elem_of_seq. lia.
Qed.

(** C2, as the code has it.  [split_data] does not return on every
    input: it returns when the library's validations pass on the sizes
    the code computes in double arithmetic, and raises the exception of
    the failing step otherwise, which is a [ValueError] or the
    [OverflowError] of [int] on an infinity; its own division never divides
    by zero.  When it returns, it returns the same three index arrays on
    every call, whatever the state of the global generator; they have the
    computed sizes, no index occurs twice in them, and together they hold
    exactly the indices below [n]. *)
Theorem split_data_partition (data : Data) (train_ratio val_ratio : Double.double) :
  let n := num_nodes data in
  (∀ e, Double.split_sizes n train_ratio val_ratio = Raise e →
     (∀ global, split_data data train_ratio val_ratio global = (Raise e, global)) ∧
     (e = ValueError ∨ e = OverflowError)) ∧
  (∀ n_train n_val n_test,
     Double.split_sizes n train_ratio val_ratio = Ok (n_train, n_val, n_test) →
     ∃ train val test,
       (∀ global, split_data data train_ratio val_ratio global
                  = (Ok (train, val, test), global)) ∧
       length train = n_train ∧ length val = n_val ∧ length test = n_test ∧
       NoDup (train ++ val ++ test) ∧
       (∀ i, i ∈ train ++ val ++ test ↔ i < n)).
Proof.
  intros n. pose proof (double_split_data_cases data train_ratio val_ratio) as H.
  cbv zeta in H. fold n in H.
  destruct (Double.split_sizes n train_ratio val_ratio) as [[[a b] c]|e0].
  - split; [done|]. by intros ? ? ? [= <- <- <-].
  - split; [|done]. by intros e [= <-].
Qed.

(** C3, as the code has it.  When the first split has set aside its pool
    and [int(val_ratio * n)] is more than that pool, nothing is clipped:
    the test size handed to the second split is a negative quotient, the
    library rejects it, and [split_data] raises [ValueError] and returns
    no split. *)
Theorem split_data_val_exceeds_pool (data : Data) (train_ratio val_ratio : Double.double)
    (global : RandomState) (n_train pool k : Z) :
  let n := num_nodes data in
  Double.shuffle_split_sizes n (Double.sub (Double.of_Z 1) train_ratio)
    = Ok (n_train, pool) →
  Double.int_of (Double.mul val_ratio (Double.of_nat n)) = Ok k →
  (pool < k)%Z →
  split_data data train_ratio val_ratio global = (Raise ValueError, global).
Proof.
  intros n E1 Ek Hk. unfold Double.split_data. fold n.
  destruct (double_first_split n _ global n_train pool E1) as (-> & Hlt & _ & Ht).
  rewrite length_seq, Ek.
  destruct (decide _) as [|_]; [lia|].
  rewrite double_train_test_split_raise with (e := ValueError); [done|].
  unfold Double.shuffle_split_sizes, Double.of_nat.
  rewrite validate_shuffle_split_negative; [done|lia..].
Qed.

End DoublePartitionerProofs.

(** ** Arithmetic on finite values *)

Lemma foldl_add_Fin (l : list R) (a : R) :
  foldl Float.add (Fin a) (Fin <$> l) = Fin (a + Rsum l).
Proof.
  revert a. induction l as [|r l IH]; intros a; simpl.
  - f_equal. unfold Rsum. simpl. lra.
  - rewrite IH. f_equal. unfold Rsum. simpl. lra.
Qed.

Lemma sum_Fin (l : list R) : Float.sum (Fin <$> l) = Fin (Rsum l).
Proof. unfold Float.sum. rewrite foldl_add_Fin. f_equal. lra. Qed.

Lemma div_Fin (a b : R) : b ≠ 0%R → Float.div (Fin a) (Fin b) = Fin (a / b).
Proof. intros Hb. simpl. by destruct (Req_dec_T b 0). Qed.

Lemma div_zero_zero : Float.div (Fin 0) (Fin 0) = NaN.
Proof.
  simpl. destruct (Req_dec_T 0 0) as [_|H]; [|done].
  unfold Float.scale_inf. by destruct (Req_dec_T 0 0).
Qed.

Lemma INR_length_ne_0 {A} (l : list A) : l ≠ [] → INR (length l) ≠ 0%R.
Proof. intros H. apply not_0_INR. by destruct l. Qed.

Lemma mean_Fin (l : list R) :
  l ≠ [] → Float.mean (Fin <$> l) = Fin (Rsum l / INR (length l)).
Proof.
  intros H. unfold Float.mean, Float.of_nat. rewrite sum_Fin, length_fmap.
  by apply div_Fin, INR_length_ne_0.
Qed.

Lemma mean_nil : Float.mean [] = NaN.
Proof. unfold Float.mean, Float.sum, Float.of_nat. simpl. apply div_zero_zero. Qed.

Lemma sqrt_Fin (a : R) : (0 <= a)%R → Float.sqrt (Fin a) = Fin (sqrt a).
Proof. intros H. simpl. destruct (Rlt_dec a 0); [lra|done]. Qed.

Lemma eqb_Fin_refl (a : R) : Float.eqb (Fin a) (Fin a) = true.
Proof. simpl. by apply bool_decide_eq_true_2. Qed.

Lemma Rsum_zeros (l : list R) : Forall (fun r => r = 0%R) l → Rsum l = 0%R.
Proof.
  induction 1 as [|r l Hr _ IH]; [done|].
  unfold Rsum in *. simpl. rewrite Hr, IH. lra.
Qed.

Lemma Rsum_replicate (n : nat) (c : R) : Rsum (replicate n c) = (INR n * c)%R.
Proof.
  induction n as [|n IH]; [unfold Rsum; simpl; lra|].
  rewrite S_INR. unfold Rsum in *. simpl. rewrite IH. lra.
Qed.

Lemma Rsum_nonneg (l : list R) : Forall (fun r => (0 <= r)%R) l → (0 <= Rsum l)%R.
Proof. induction 1 as [|r l Hr _ IH]; unfold Rsum in *; simpl; lra. Qed.

(** A sum of squared deviations vanishes only on a constant list. *)
Lemma Rsum_squares_nonneg (l : list R) (m : R) :
  (0 <= Rsum ((fun t => ((t + - m) * (t + - m))%R) <$> l))%R.
Proof.
  apply Rsum_nonneg, Forall_forall. intros r Hr.
  apply list_elem_of_fmap in Hr as (t' & -> & _). apply Rle_0_sqr.
Qed.

Lemma Rsum_squares_zero (l : list R) (m : R) :
  Rsum ((fun t => ((t + - m) * (t + - m))%R) <$> l) = 0%R → Forall (fun t => t = m) l.
Proof.
  induction l as [|t l IH]; [constructor|].
  change (Rsum ((fun t => ((t + - m) * (t + - m))%R) <$> (t :: l)))
    with ((t + - m) * (t + - m) + Rsum ((fun t => ((t + - m) * (t + - m))%R) <$> l))%R.
  intros H.
  assert (0 <= Rsum ((fun t => ((t + - m) * (t + - m))%R) <$> l))%R as Hs.
  { apply Rsum_nonneg, Forall_forall. intros r Hr.
    apply list_elem_of_fmap in Hr as (t' & -> & _). apply Rle_0_sqr. }
  assert (0 <= (t + - m) * (t + - m))%R as Ht by apply Rle_0_sqr.
  constructor; [|apply IH; lra].
  assert (t + - m = 0)%R; [|lra]. apply Rsqr_0_uniq. unfold Rsqr. lra.
Qed.

Lemma zip_with_Fin_diag (g : float → float → float) (h : R → R) (l : list R) :
  Forall (fun t => g (Fin t) (Fin t) = Fin (h t)) l →
  zip_with g (Fin <$> l) (Fin <$> l) = Fin <$> (h <$> l).
Proof. induction 1 as [|t l Ht _ IH]; csimpl; [done|]. by rewrite Ht, IH. Qed.

Lemma zip_with_Fin (g : float → float → float) (h : R → R → R) (a b : list R) :
  (∀ u v, g (Fin u) (Fin v) = Fin (h u v)) →
  zip_with g (Fin <$> a) (Fin <$> b) = Fin <$> zip_with h a b.
Proof.
  intros H. revert b. induction a as [|u a IH]; intros [|v b]; csimpl; try done.
  by rewrite H, IH.
Qed.

Lemma Rsum_ones {A} (l : list A) : Rsum ((fun _ => 1%R) <$> l) = INR (length l).
Proof.
  induction l as [|a l IH]; [done|].
  change (Rsum ((fun _ => 1%R) <$> (a :: l))) with (1 + Rsum ((fun _ : A => 1%R) <$> l))%R.
  rewrite IH. change (length (a :: l)) with (S (length l)). rewrite S_INR. lra.
Qed.

(** The mean of a combination that vanishes on equal arguments. *)
Lemma mean_diag_zero (g : float → float → float) (h : R → R) (l : list R) :
  l ≠ [] →
  Forall (fun t => g (Fin t) (Fin t) = Fin (h t) ∧ h t = 0%R) l →
  Float.mean (zip_with g (Fin <$> l) (Fin <$> l)) = Fin 0.
Proof.
  intros Hl H. rewrite (zip_with_Fin_diag g h).
  - rewrite mean_Fin by by destruct l. rewrite Rsum_zeros.
    + f_equal. rewrite length_fmap. field. by apply INR_length_ne_0.
    + apply Forall_fmap. eapply Forall_impl; [exact H|]. by intros t [_ ?].
  - eapply Forall_impl; [exact H|]. by intros t [? _].
Qed.

(** ** The normalizer on a constant column *)

Lemma mean_replicate (c : R) (n : nat) :
  Float.mean (replicate (S n) (Fin c)) = Fin c.
Proof.
  rewrite <- fmap_replicate, mean_Fin by done.
  rewrite Rsum_replicate, length_replicate. f_equal. field. apply not_0_INR. lia.
Qed.

Lemma squares_replicate (c : R) (n : nat) (sq : float → float) :
  sq (Fin c) = Fin 0 →
  Float.sum (map sq (replicate n (Fin c))) = Fin 0.
Proof.
  intros H. change (map sq (replicate n (Fin c))) with (sq <$> replicate n (Fin c)).
  rewrite fmap_replicate, H. change (Fin 0) with (Fin 0%R) at 1.
  rewrite <- fmap_replicate, sum_Fin, Rsum_replicate. f_equal. lra.
Qed.

Lemma centred_square (c : R) :
  Float.mul (Float.sub (Fin c) (Fin c)) (Float.sub (Fin c) (Fin c)) = Fin 0.
Proof. simpl. f_equal. lra. Qed.

Lemma tensor_std_constant (c : R) (n : nat) :
  tensor_std (replicate (S n) (Fin c)) = (if decide (n = 0) then NaN else Fin 0).
Proof.
  unfold tensor_std. rewrite mean_replicate, squares_replicate by apply centred_square.
  rewrite length_replicate. replace (S n - 1) with n by lia. unfold Float.of_nat.
  destruct (decide (n = 0)) as [->|Hn].
  - simpl INR. by rewrite div_zero_zero.
  - rewrite div_Fin by by apply not_0_INR.
    replace (0 / INR n)%R with 0%R by (field; by apply not_0_INR).
    rewrite sqrt_Fin by lra. by rewrite sqrt_0.
Qed.

(** C4, the label path.  A label vector whose entries are all the same
    (zero variance) is standardized to NaN in every position, not to zeros:
    [data.y.std()] is 0 (or NaN for a single node) and the division has no
    guard. *)
Theorem standardize_labels_constant (c : R) (n : nat) :
  standardize_labels (replicate (S n) (Fin c)) = replicate (S n) NaN.
Proof.
  unfold standardize_labels. rewrite mean_replicate, tensor_std_constant.
  change (map ?f ?l) with (f <$> l). rewrite fmap_replicate. f_equal.
  destruct (decide (n = 0)); [done|].
  simpl. destruct (Req_dec_T 0 0) as [_|H]; [|done].
  unfold Float.scale_inf. destruct (Req_dec_T (c + - c) 0) as [_|H]; [done|].
  exfalso. apply H. lra.
Qed.

Lemma filter_not_nan_Fin (l : list R) :
  filter (fun v => Float.is_nan v = false) (Fin <$> l) = Fin <$> l.
Proof.
  induction l as [|r l IH]; csimpl; [done|].
  rewrite filter_cons_True by done. by rewrite IH.
Qed.

(** C4, the feature path.  [StandardScaler] replaces a zero scale by 1: a
    constant feature column is mapped to zeros. *)
Lemma scale_column_constant (c : R) (n : nat) :
  scale_column (replicate (S n) (Fin c)) = replicate (S n) (Fin 0).
Proof.
  assert (column_mean (replicate (S n) (Fin c)) = Fin c) as Hm.
  { unfold column_mean. rewrite <- fmap_replicate, filter_not_nan_Fin, fmap_replicate.
    apply mean_replicate. }
  assert (column_scale (replicate (S n) (Fin c)) = Fin 1) as Hs.
  { unfold column_scale, column_var. rewrite Hm.
    rewrite <- fmap_replicate, filter_not_nan_Fin, fmap_replicate.
    unfold Float.mean. rewrite squares_replicate by apply centred_square.
    rewrite length_map, length_replicate. unfold Float.of_nat.
    rewrite div_Fin by (apply not_0_INR; lia).
    replace (0 / INR (S n))%R with 0%R by (field; apply not_0_INR; lia).
    rewrite sqrt_Fin by lra. rewrite sqrt_0. unfold handle_zeros_in_scale.
    by rewrite eqb_Fin_refl. }
  unfold scale_column. rewrite Hm, Hs.
  change (map ?f ?l) with (f <$> l). rewrite fmap_replicate. f_equal.
  change (Float.sub (Fin c) (Fin c)) with (Fin (c + - c)).
  rewrite div_Fin by lra. f_equal. lra.
Qed.

(** ** The evaluator *)

Lemma check_arrays_Fin (t p : list R) :
  t ≠ [] → check_arrays (Fin <$> t) (Fin <$> p) = Ok ().
Proof.
  intros Ht. unfold check_arrays. rewrite length_fmap.
  destruct (decide (length t = 0)) as [Hz|_]; [by destruct t|].
  assert (∀ l : list R, forallb Float.is_finite (Fin <$> l) = true) as Hfin
    by (induction l as [|? ? IH]; csimpl; [done|by rewrite IH]).
  by rewrite !Hfin.
Qed.

Lemma signs_finite (ds : list R) :
  ∃ rs, map Float.sign (Fin <$> ds) = Fin <$> rs ∧ length rs = length ds.
Proof.
  induction ds as [|d ds (rs & Hrs & Hlen)]; csimpl.
  - by exists [].
  - destruct (Rlt_dec d 0); [|destruct (Rlt_dec 0 d)]; eexists (_ :: rs); csimpl;
      by rewrite Hrs, Hlen.
Qed.

Lemma deltas_Fin (a : list R) :
  ∃ ds, deltas (Fin <$> a) = Fin <$> ds ∧ length ds = length a - 1.
Proof.
  unfold deltas. rewrite length_fmap, <- fmap_drop, <- fmap_take.
  exists (zip_with (fun u v => (u + - v)%R) (drop 1 a) (take (length a - 1) a)).
  split; [by apply zip_with_Fin|].
  rewrite length_zip_with, length_drop, length_take. lia.
Qed.

Lemma mean_agree_refl (rs : list R) :
  rs ≠ [] → mean_agree (Fin <$> rs) (Fin <$> rs) = Fin 1.
Proof.
  intros H. unfold mean_agree.
  rewrite (zip_with_Fin_diag _ (fun _ => 1%R)).
  - rewrite mean_Fin by by destruct rs. rewrite Rsum_ones, length_fmap.
    f_equal. field. by apply INR_length_ne_0.
  - apply Forall_forall. intros r _. by rewrite eqb_Fin_refl.
Qed.

(** The directional accuracy of predictions equal to the true values. *)
Lemma directional_accuracy_equal (a : list R) :
  2 ≤ length a →
  Float.mul (mean_agree (map Float.sign (deltas (Fin <$> a)))
                        (map Float.sign (deltas (Fin <$> a)))) (Fin 100) = Fin 100.
Proof.
  intros Hlen. destruct (deltas_Fin a) as (ds & -> & Hds).
  destruct (signs_finite ds) as (rs & -> & Hrs).
  rewrite mean_agree_refl by (destruct rs; simpl in *; [lia|done]).
  simpl. f_equal. lra.
Qed.

(** The variance entry of [np.cov] on finite values. *)
Lemma np_cov_diag (a : list R) :
  2 ≤ length a →
  np_cov (Fin <$> a) (Fin <$> a) =
    Fin (Rsum ((fun t => ((t + - (Rsum a / INR (length a))) *
                          (t + - (Rsum a / INR (length a))))%R) <$> a)
         * (1 / INR (length a - 1))).
Proof.
  intros Hlen. unfold np_cov.
  rewrite mean_Fin by (destruct a; simpl in *; [lia|done]).
  rewrite (zip_with_Fin_diag _ (fun t => ((t + - (Rsum a / INR (length a))) *
                                          (t + - (Rsum a / INR (length a))))%R))
    by (by apply Forall_forall).
  rewrite sum_Fin, length_fmap. unfold Float.of_nat.
  rewrite div_Fin by (apply not_0_INR; lia). done.
Qed.

Lemma compute_metrics_Fin (p t : list R) :
  t ≠ [] →
  ∃ m, compute_metrics (Fin <$> p) (Fin <$> t) = Ok m ∧
    MAE m = Float.mean (zip_with (fun pv tv => Float.abs (Float.sub pv tv))
                                 (Fin <$> p) (Fin <$> t)) ∧
    RMSE m = Float.sqrt (Float.mean (zip_with
               (fun tv pv => Float.mul (Float.sub tv pv) (Float.sub tv pv))
               (Fin <$> t) (Fin <$> p))) ∧
    MAPE m = Float.mul (Float.mean (zip_with
               (fun tv pv => Float.abs (Float.div (Float.sub tv pv) tv))
               (Fin <$> t) (Fin <$> p))) (Fin 100) ∧
    Directional_Accuracy m =
      Float.mul (mean_agree (map Float.sign (deltas (Fin <$> p)))
                            (map Float.sign (deltas (Fin <$> t)))) (Fin 100) ∧
    Sharpe_Ratio m =
      (let returns := zip_with Float.sub (Fin <$> p) (Fin <$> t) in
       if negb (Float.eqb (np_std returns) (Fin 0))
       then Float.div (Float.mean returns) (np_std returns) else Fin 0) ∧
    Information_Coefficient m = np_corrcoef (Fin <$> p) (Fin <$> t).
Proof.
  intros Ht. unfold compute_metrics, mean_absolute_error, mean_squared_error.
  rewrite check_arrays_Fin by done. cbn [bind]. eexists. split; [reflexivity|].
  cbn [MAE RMSE MAPE Directional_Accuracy Sharpe_Ratio Information_Coefficient].
  repeat split.
Qed.

Lemma squeeze_Vector (output : list float) :
  length output ≠ 1 → squeeze output = Vector output.
Proof. by destruct output as [|v [|w output]]. Qed.

Lemma np_getitem_rows (l : list float) (idx : list nat) :
  length idx ≠ 1 → np_getitem (Vector l) idx = (do rows <- index_select l idx; Ok (Vector rows)).
Proof. by destruct idx as [|i [|j idx]]. Qed.

Section EvaluatorProofs.

Variable EnhancedGCN : Type.
Variable set_training : bool → EnhancedGCN → EnhancedGCN.
Variable forward : EnhancedGCN → list (list float) → list nat * list nat →
                   list float * EnhancedGCN.

(** With more than one node and a test split that is not a single row,
    the two indexings give arrays and the metrics are computed from
    them. *)
Lemma evaluate_model_unfold (model : EnhancedGCN) (data : Data) (p t : list float) :
  length (forward (set_training false model) (x data) (edge_index data)).1 ≠ 1 →
  length (test_idx data) ≠ 1 →
  index_select (y data) (test_idx data) = Ok t →
  index_select (forward (set_training false model) (x data) (edge_index data)).1
               (test_idx data) = Ok p →
  evaluate_model EnhancedGCN set_training forward model data = compute_metrics p t.
Proof.
  intros Hout Hidx Ht Hp. unfold evaluate_model.
  destruct (forward _ _ _) as [output model']. simpl in Hp, Hout.
  rewrite (squeeze_Vector _ Hout), !np_getitem_rows by done.
  by rewrite Ht, Hp.
Qed.

(** C8, as the code has it.  When the test split has at least two rows
    and the predictions on them equal the true values, which are finite and
    nonzero, the Evaluator reports MAE 0, RMSE 0, MAPE 0 and directional
    accuracy 100. *)
Theorem evaluate_model_perfect (model : EnhancedGCN) (data : Data) (ts : list R) :
  length (forward (set_training false model) (x data) (edge_index data)).1 ≠ 1 →
  2 ≤ length (test_idx data) →
  index_select (y data) (test_idx data) = Ok (Fin <$> ts) →
  index_select (forward (set_training false model) (x data) (edge_index data)).1
               (test_idx data) = Ok (Fin <$> ts) →
  Forall (fun t => t ≠ 0%R) ts →
  ∃ m, evaluate_model EnhancedGCN set_training forward model data = Ok m ∧
       MAE m = Fin 0 ∧ RMSE m = Fin 0 ∧ MAPE m = Fin 0 ∧
       Directional_Accuracy m = Fin 100.
Proof.
  intros Hout Hidx Ht Hp Hnz.
  rewrite (evaluate_model_unfold _ _ _ _ Hout ltac:(lia) Ht Hp).
  assert (2 ≤ length ts) as Hlen.
  { apply index_select_length in Ht. rewrite length_fmap in Ht. lia. }
  assert (ts ≠ []) as Hne by (intros ->; simpl in Hlen; lia).
  destruct (compute_metrics_Fin ts ts Hne) as (m & Hm & Hmae & Hrmse & Hmape & Hda & _ & _).
  exists m. split; [done|]. rewrite Hmae, Hrmse, Hmape, Hda.
  repeat split.
  - apply (mean_diag_zero _ (fun t => Rabs (t + - t))); [done|].
    apply Forall_forall. intros t _. split; [done|].
    replace (t + - t)%R with 0%R by lra. apply Rabs_R0.
  - rewrite (mean_diag_zero _ (fun t => ((t + - t) * (t + - t))%R)); [|done|].
    + rewrite sqrt_Fin by lra. by rewrite sqrt_0.
    + apply Forall_forall. intros t _. split; [done|]. lra.
  - rewrite (mean_diag_zero _ (fun t => Rabs ((t + - t) / t))); [|done|].
    + simpl. f_equal. lra.
    + eapply Forall_impl; [exact Hnz|]. intros t Htz. cbv beta. split.
      * change (Float.sub (Fin t) (Fin t)) with (Fin (t + - t)).
        by rewrite div_Fin.
      * replace ((t + - t) / t)%R with 0%R by (field; done). apply Rabs_R0.
  - by apply directional_accuracy_equal.
Qed.

(** One test row in range, on a graph of more than one node: each of
    the two arrays indexed by the one-element tensor is a numpy scalar, and
    [mean_absolute_error] raises [TypeError]. *)
Lemma evaluate_model_one_row (model : EnhancedGCN) (data : Data) (i : nat) :
  test_idx data = [i] →
  i < length (y data) →
  i < length (forward (set_training false model) (x data) (edge_index data)).1 →
  length (forward (set_training false model) (x data) (edge_index data)).1 ≠ 1 →
  evaluate_model EnhancedGCN set_training forward model data = Raise TypeError.
Proof.
  intros Hidx Hy Hi Hout. unfold evaluate_model. rewrite Hidx.
  destruct (forward _ _ _) as [output model']. cbn [fst] in Hi, Hout.
  rewrite (squeeze_Vector _ Hout). cbn [np_getitem].
  destruct (lookup_lt_is_Some_2 _ _ Hy) as [t ->].
  by destruct (lookup_lt_is_Some_2 _ _ Hi) as [p ->].
Qed.

(** C7, as the code has it.  On a test split of one row the Evaluator
    returns no report.  When the row is in range, on a graph of more than
    one node, each of the two arrays indexed by the one-element tensor is a
    numpy scalar, and [mean_absolute_error] raises [TypeError]. *)
Theorem evaluate_model_single_test_row (model : EnhancedGCN) (data : Data) (i : nat) :
  test_idx data = [i] →
  (∀ m, evaluate_model EnhancedGCN set_training forward model data ≠ Ok m) ∧
  (i < length (y data) →
   i < length (forward (set_training false model) (x data) (edge_index data)).1 →
   length (forward (set_training false model) (x data) (edge_index data)).1 ≠ 1 →
   evaluate_model EnhancedGCN set_training forward model data = Raise TypeError).
Proof.
  intros Hidx. split; [|by apply evaluate_model_one_row].
  unfold evaluate_model. rewrite Hidx.
  destruct (forward _ _ _) as [output model']. cbn [np_getitem].
  destruct (y data !! i) as [t|]; [|done]. cbn [bind].
  destruct (squeeze output) as [v|l]; [done|]. cbn [np_getitem].
  by destruct (l !! i) as [p|].
Qed.

End EvaluatorProofs.

(** ** The trainer *)

Lemma criterion_nil : criterion [] [] = NaN.
Proof. unfold criterion. simpl. apply mean_nil. Qed.

Section TrainingProofs.

Variable EnhancedGCN : Type.
Variable set_training : bool → EnhancedGCN → EnhancedGCN.
Variable forward : EnhancedGCN → list (list float) → list nat * list nat →
                   list float * EnhancedGCN.
Variable Optimizer : Type.
Variable Gradients : Type.
Variable new_optimizer : EnhancedGCN → R → Optimizer.
Variable backward : EnhancedGCN → list (list float) → list nat * list nat →
                    (list float → float) → Gradients.
Variable optimizer_step : Optimizer → Gradients → EnhancedGCN → EnhancedGCN * Optimizer.
Variable scheduler_step : Optimizer → Optimizer.

Local Abbreviation train_epoch := (train_epoch EnhancedGCN set_training forward Optimizer Gradients
                                     backward optimizer_step scheduler_step).
Local Abbreviation train_loop := (train_loop EnhancedGCN set_training forward Optimizer Gradients
                                   backward optimizer_step scheduler_step).
Local Abbreviation train_model := (train_model EnhancedGCN set_training forward Optimizer Gradients
                                     new_optimizer backward optimizer_step scheduler_step).

(** The validation loss of an epoch is computed from the output of the
    forward pass made before the update, in training mode. *)
Lemma train_epoch_val_loss (data : Data) (i : nat) (model model' : EnhancedGCN)
    (optimizer optimizer' : Optimizer) (line : EpochMetrics) :
  train_epoch data i (model, optimizer) = Ok (model', optimizer', line) →
  ∃ out_val y_val,
    tensor_getitem (squeeze (forward (set_training true model) (x data) (edge_index data)).1)
                   (val_idx data) = Ok out_val ∧
    index_select (y data) (val_idx data) = Ok y_val ∧
    val_loss line = criterion out_val y_val.
Proof.
  unfold train_epoch.
  destruct (forward (set_training true model) (x data) (edge_index data)) as [output m1].
  cbn [fst]. cbv zeta.
  destruct (tensor_getitem (squeeze output) (train_idx data)) as [out_train|]; [|done].
  destruct (index_select (y data) (train_idx data)) as [y_train|]; [|done]. cbn [bind].
  destruct (optimizer_step _ _ _) as [m2 o2].
  destruct (tensor_getitem (squeeze output) (val_idx data)) as [out_val|]; [|done].
  destruct (index_select (y data) (val_idx data)) as [y_val|]; [|done]. cbn [bind].
  intros [= <- <- <-]. by exists out_val, y_val.
Qed.

(** The update of an epoch does not read the validation split: two data
    objects that differ only there give the same model, optimizer and train
    loss. *)
Lemma train_epoch_ignores_val_idx (data1 data2 : Data) (i : nat)
    (st : EnhancedGCN * Optimizer) (m1 m2 : EnhancedGCN) (o1 o2 : Optimizer)
    (l1 l2 : EpochMetrics) :
  x data1 = x data2 → edge_index data1 = edge_index data2 → y data1 = y data2 →
  train_idx data1 = train_idx data2 →
  train_epoch data1 i st = Ok (m1, o1, l1) →
  train_epoch data2 i st = Ok (m2, o2, l2) →
  m1 = m2 ∧ o1 = o2 ∧ train_loss l1 = train_loss l2.
Proof.
  intros Hx He Hy Ht. unfold train_epoch. destruct st as [model optimizer].
  rewrite <- Hx, <- He, <- Hy, <- Ht.
  destruct (forward (set_training true model) (x data1) (edge_index data1)) as [output m].
  cbv zeta.
  destruct (tensor_getitem (squeeze output) (train_idx data1)) as [out_train|]; [|done].
  destruct (index_select (y data1) (train_idx data1)) as [y_train|]; [|done]. cbn [bind].
  destruct (optimizer_step _ _ _) as [m' o'].
  destruct (tensor_getitem (squeeze output) (val_idx data1)) as [ov1|]; [|done].
  destruct (index_select (y data1) (val_idx data1)) as [yv1|]; [|done].
  destruct (tensor_getitem (squeeze output) (val_idx data2)) as [ov2|]; [|done].
  destruct (index_select (y data1) (val_idx data2)) as [yv2|]; [|done]. cbn [bind].
  by intros [= <- <- <-] [= <- <- <-].
Qed.

Lemma train_loop_S (data : Data) (first epochs : nat) (st : EnhancedGCN * Optimizer) :
  train_loop data first (S epochs) st =
    (do (model, optimizer, line) <- train_epoch data first st;
     do (model', optimizer', lines) <- train_loop data (S first) epochs (model, optimizer);
     Ok (model', optimizer', line :: lines)).
Proof. done. Qed.

Lemma train_loop_ignores_val_idx (data1 data2 : Data) (epochs first : nat)
    (st : EnhancedGCN * Optimizer) (m1 m2 : EnhancedGCN) (o1 o2 : Optimizer)
    (l1 l2 : list EpochMetrics) :
  x data1 = x data2 → edge_index data1 = edge_index data2 → y data1 = y data2 →
  train_idx data1 = train_idx data2 →
  train_loop data1 first epochs st = Ok (m1, o1, l1) →
  train_loop data2 first epochs st = Ok (m2, o2, l2) →
  m1 = m2 ∧ o1 = o2 ∧ train_loss <$> l1 = train_loss <$> l2.
Proof.
  intros Hx He Hy Ht. revert first st m1 m2 o1 o2 l1 l2.
  induction epochs as [|epochs IH]; intros first [m o] m1 m2 o1 o2 l1 l2.
  - simpl. by intros [= <- <- <-] [= <- <- <-].
  - rewrite !train_loop_S.
    destruct (train_epoch data1 first (m, o)) as [[[ma oa] la]|] eqn:E1; [|by simpl].
    destruct (train_epoch data2 first (m, o)) as [[[mb ob] lb]|] eqn:E2; [|by simpl]. simpl.
    destruct (train_epoch_ignores_val_idx _ _ _ _ _ _ _ _ _ _ Hx He Hy Ht E1 E2)
      as (<- & <- & Hl).
    destruct (train_loop data1 (S first) epochs (ma, oa)) as [[[mc oc] lc]|] eqn:E3; [|by simpl].
    destruct (train_loop data2 (S first) epochs (ma, oa)) as [[[md od] ld]|] eqn:E4; [|by simpl].
    simpl. intros [= <- <- <-] [= <- <- <-].
    destruct (IH _ _ _ _ _ _ _ _ E3 E4) as (<- & <- & Hls).
    csimpl. by rewrite Hl, Hls.
Qed.

(** The first epoch on a graph of one node: the squeezed output has
    dimension 0 and cannot be indexed, whatever the index. *)
Lemma train_epoch_one_node (data : Data) (i : nat) (model : EnhancedGCN)
    (optimizer : Optimizer) :
  length (forward (set_training true model) (x data) (edge_index data)).1 = 1 →
  train_epoch data i (model, optimizer) = Raise IndexError.
Proof.
  unfold train_epoch.
  destruct (forward (set_training true model) (x data) (edge_index data)) as [output m1].
  cbn [fst]. by destruct output as [|v [|w output]].
Qed.

(** C6, as the code has it.  With an empty train split the training does
    not fail for that reason.  Take a network that gives one prediction
    per node, and validation indices in range.  On a graph that does not
    have exactly one node the loss of every epoch is the mean of an empty
    tensor, NaN, and the loop runs all its epochs and returns.  On a graph
    of one node the squeezed output has dimension 0, and the first epoch
    raises [IndexError] when it indexes it. *)
Theorem train_model_empty_train_split (model : EnhancedGCN) (data : Data)
    (epochs : nat) (lr : R) :
  train_idx data = [] →
  (∀ m, length (forward m (x data) (edge_index data)).1 = num_nodes data) →
  length (y data) = num_nodes data →
  Forall (fun i => i < num_nodes data) (val_idx data) →
  (num_nodes data ≠ 1 →
   ∃ model' lines,
     train_model model data epochs lr = Ok (model', lines) ∧
     length lines = epochs ∧
     Forall (fun line => train_loss line = NaN) lines) ∧
  (num_nodes data = 1 → 0 < epochs →
   train_model model data epochs lr = Raise IndexError).
Proof.
  intros Htrain Hout Hy Hval. unfold train_model. split.
  - intros Hn.
    assert (∀ first st, ∃ model' optimizer' lines,
              train_loop data first epochs st = Ok (model', optimizer', lines) ∧
              length lines = epochs ∧
              Forall (fun line => train_loss line = NaN) lines) as Hloop.
    { induction epochs as [|n IH]; intros first [m o].
      - exists m, o, []. by repeat split.
      - rewrite train_loop_S. unfold train_epoch at 1. rewrite Htrain.
        specialize (Hout (set_training true m)).
        destruct (forward (set_training true m) (x data) (edge_index data))
          as [output m1]. cbn [fst] in Hout. cbv zeta.
        rewrite squeeze_Vector by lia. cbn [tensor_getitem index_select bind].
        destruct (optimizer_step _ _ _) as [m2 o2].
        rewrite (index_select_in_range NaN output) by by rewrite Hout.
        rewrite (index_select_in_range NaN (y data)) by by rewrite Hy.
        cbn [bind].
        destruct (IH (S first) (set_training false m2, scheduler_step o2))
          as (m' & o' & lines & -> & Hlen & Hall). cbn [bind].
        eexists _, _, _. split; [done|]. split; [simpl; by rewrite Hlen|].
        constructor; [|done]. simpl. apply criterion_nil. }
    destruct (Hloop 0 (model, new_optimizer model lr)) as (m' & o' & lines & -> & ? & ?).
    simpl. by exists m', lines.
  - intros Hn Hep. destruct epochs as [|n]; [lia|].
    rewrite train_loop_S, train_epoch_one_node; [done|]. by rewrite Hout.
Qed.

End TrainingProofs.

(** ** Runs on concrete inputs *)

Lemma rotation_permutation_perm (g : Rotation.RandomState) (n : nat) :
  (Rotation.permutation g n).1 ≡ₚ seq 0 n.
Proof.
  unfold Rotation.permutation, rotate. simpl.
  by rewrite Permutation_app_comm, take_drop.
Qed.

(** C1.  One epoch on two nodes, node 0 in the train split and node 1 in
    the validation split, both with label 1, starting from bias 0 with
    learning rate 1/2: the update moves the bias to 1, so a forward pass made
    after the update has validation loss 0, but the loss the epoch reports
    is 1, the loss of the output computed before the update. *)
Theorem val_loss_not_recomputed :
  ∃ model' line fresh,
    Bias.train_model (Fin 0) two_nodes 1 (1 / 2) = Ok (model', [line]) ∧
    Bias.fresh_val_loss model' two_nodes = Ok fresh ∧
    val_loss line = Fin 1 ∧ fresh = Fin 0.
Proof.
  unfold Bias.train_model, train_model, Bias.fresh_val_loss, fresh_val_loss.
  float_eval.
  eexists _, _, _. split; [reflexivity|]. float_eval. split; [reflexivity|].
  split; cbn; f_equal; field.
Qed.

(** C2 fails on one node: the first split would leave the train part
    empty, and the library raises, whatever the generator. *)
Lemma split_data_one_node_raises :
  num_nodes (blank_data 1) = 1 ∧
  ∀ (RandomState : Type) (seeded : Z → RandomState)
    (permutation : RandomState → nat → list nat * RandomState) (global : RandomState),
    Double.split_data RandomState seeded permutation (blank_data 1)
                      Double.default_train_ratio Double.default_val_ratio global
      = (Raise ValueError, global).
Proof.
  split; [done|]. intros. unfold Double.split_data, Double.train_test_split.
  replace (Double.shuffle_split_sizes _ _) with (@Raise (Z * Z) ValueError)
    by (vm_compute; reflexivity).
  done.
Qed.

Lemma split_data_partition_witness :
  ∃ train val test,
    (∀ global, Double.split_data Rotation.RandomState Rotation.seeded Rotation.permutation
                 (blank_data 10) Double.default_train_ratio Double.default_val_ratio global
               = (Ok (train, val, test), global)) ∧
    length train = 6 ∧ length val = 1 ∧ length test = 3 ∧
    NoDup (train ++ val ++ test) ∧
    (∀ i, i ∈ train ++ val ++ test ↔ i < 10).
Proof.
  apply (split_data_partition Rotation.RandomState Rotation.seeded Rotation.permutation
           rotation_permutation_perm (blank_data 10)
           Double.default_train_ratio Double.default_val_ratio).
  vm_compute. reflexivity.
Defined.

(** C3 fails on ten nodes with ratios 0.5 and 0.9: nine validation
    indices are asked from a pool of five, and the call raises. *)
Lemma split_data_does_not_clip :
  Double.shuffle_split_sizes 10 (Double.sub (Double.of_Z 1) (Double.literal 5 10))
    = Ok (5, 5)%Z ∧
  Double.int_of (Double.mul (Double.literal 9 10) (Double.of_nat 10)) = Ok 9%Z ∧
  Double.split_data Rotation.RandomState Rotation.seeded Rotation.permutation
                    (blank_data 10) (Double.literal 5 10) (Double.literal 9 10) 0
    = (Raise ValueError, 0).
Proof. repeat split; vm_compute; reflexivity. Qed.

Lemma split_data_val_exceeds_pool_witness :
  Double.split_data Rotation.RandomState Rotation.seeded Rotation.permutation
                    (blank_data 10) (Double.literal 5 10) (Double.literal 9 10) 0
    = (Raise ValueError, 0).
Proof.
  apply (split_data_val_exceeds_pool Rotation.RandomState Rotation.seeded
           Rotation.permutation rotation_permutation_perm (blank_data 10)
           (Double.literal 5 10) (Double.literal 9 10) 0 5 5 9);
    [vm_compute; reflexivity..|lia].
Defined.

Lemma split_data_fixed_seed_witness :
  (split_data Rotation.RandomState Rotation.seeded Rotation.permutation
     (blank_data 10) default_train_ratio default_val_ratio 0).1 =
  (split_data Rotation.RandomState Rotation.seeded Rotation.permutation
     (blank_data 10) default_train_ratio default_val_ratio 7).1 ∧
  (split_data Rotation.RandomState Rotation.seeded Rotation.permutation
     (blank_data 10) default_train_ratio default_val_ratio 0).2 = 0.
Proof.
  apply (split_data_fixed_seed Rotation.RandomState Rotation.seeded Rotation.permutation
           (blank_data 10) (blank_data 10) default_train_ratio default_val_ratio 0 7).
  reflexivity.
Defined.


Lemma labels_are_feature_column_1_witness :
  match nx_to_pyg_data chain with
  | Ok data => y data = column 1 (x data) ∧ length (y data) = length (x data)
  | Raise _ => False
  end.
Proof.
  destruct (nx_to_pyg_data chain) as [data|e] eqn:E.
  - exact (labels_are_feature_column_1 chain data E).
  - vm_compute in E. discriminate E.
Defined.

(** C6 fails on two nodes with an empty train split: the call returns,
    with train loss NaN. *)
Lemma empty_train_split_trains :
  train_idx two_nodes_no_train = [] ∧
  ∃ model' line,
    Bias.train_model (Fin 0) two_nodes_no_train 1 (1 / 2) = Ok (model', [line]) ∧
    train_loss line = NaN.
Proof.
  split; [done|]. unfold Bias.train_model, train_model. float_eval.
  by eexists _, _.
Qed.

Lemma train_model_empty_train_split_witness :
  (∃ model' lines,
     Bias.train_model (Fin 0) two_nodes_no_train 3 (1 / 2) = Ok (model', lines) ∧
     length lines = 3 ∧
     Forall (fun line => train_loss line = NaN) lines) ∧
  Bias.train_model (Fin 0) one_node 3 (1 / 2) = Raise IndexError.
Proof.
  split.
  - refine (proj1 (train_model_empty_train_split Bias.EnhancedGCN Bias.set_training
             Bias.forward Bias.Optimizer Bias.Gradients Bias.new_optimizer Bias.backward
             Bias.optimizer_step Bias.scheduler_step (Fin 0) two_nodes_no_train 3 (1 / 2)
             _ _ _ _) _); [reflexivity|intros m; reflexivity|reflexivity| |done].
    repeat constructor.
  - refine (proj2 (train_model_empty_train_split Bias.EnhancedGCN Bias.set_training
             Bias.forward Bias.Optimizer Bias.Gradients Bias.new_optimizer Bias.backward
             Bias.optimizer_step Bias.scheduler_step (Fin 0) one_node 3 (1 / 2)
             _ _ _ _) _ _); [reflexivity|intros m; reflexivity|reflexivity| |done|lia].
    repeat constructor.
Defined.

Lemma evaluate_model_single_test_row_witness :
  Bias.evaluate_model (Fin 0) single_test_row = Raise TypeError.
Proof.
  apply (proj2 (evaluate_model_single_test_row Bias.EnhancedGCN Bias.set_training
                  Bias.forward (Fin 0) single_test_row 1 eq_refl)); simpl; lia.
Defined.

(** C8 fails on the information coefficient: on two test rows with the
    same label 2 and predictions equal to the labels the variance is 0 and
    the coefficient is [0/0]. *)
Lemma constant_labels_ic_nan :
  index_select (y constant_labels) (test_idx constant_labels) = Ok [Fin 2; Fin 2] ∧
  index_select (Echo.forward () (x constant_labels) (edge_index constant_labels)).1
               (test_idx constant_labels) = Ok [Fin 2; Fin 2] ∧
  ∃ m, Echo.evaluate_model () constant_labels = Ok m ∧
       Information_Coefficient m = NaN.
Proof.
  split; [done|]. split; [done|].
  unfold Echo.evaluate_model.
  rewrite (evaluate_model_unfold _ _ _ _ _ [Fin 2; Fin 2] [Fin 2; Fin 2]) by done.
  destruct (compute_metrics_Fin [2; 2] [2; 2])%R as (m & Hm & _ & _ & _ & _ & _ & Hic);
    [done|].
  exists m. split; [exact Hm|]. rewrite Hic.
  unfold np_corrcoef. rewrite np_cov_diag by (simpl; lia).
  match goal with
  | |- context [Fin ?e] => replace e with 0%R by (unfold Rsum; simpl; field)
  end.
  rewrite sqrt_Fin by lra. rewrite sqrt_0. by rewrite div_zero_zero.
Qed.

Lemma evaluate_model_perfect_witness :
  ∃ m, Echo.evaluate_model () varying_labels = Ok m ∧
       MAE m = Fin 0 ∧ RMSE m = Fin 0 ∧ MAPE m = Fin 0 ∧
       Directional_Accuracy m = Fin 100.
Proof.
  apply (evaluate_model_perfect Echo.EnhancedGCN Echo.set_training Echo.forward
           () varying_labels [1; 2]%R).
  - done.
  - simpl. lia.
  - reflexivity.
  - reflexivity.
  - repeat constructor; lra.
Defined.

(** * Further properties *)

(** ** Encoding *)

(** The encoded graph has one feature row of five columns and one label
    per node, and one column of the edge index per edge. *)
Theorem encoding_shape (graph : Graph) (data : Data) :
  nx_to_pyg_data graph = Ok data →
  num_nodes data = length (nodes graph) ∧
  length (y data) = length (nodes graph) ∧
  Forall (fun row => length row = 5) (x data) ∧
  length (edge_index data).1 = length (edges graph) ∧
  length (edge_index data).2 = length (edges graph).
Proof.
  unfold nx_to_pyg_data, num_nodes.
  destruct (nodes_loop_spec (nodes graph)) as (Hf & Hl & _).
  destruct (nodes_loop (nodes graph)) as [[f l] m]. simpl in Hf, Hl.
  destruct (edges_loop m (edges graph)) as [ei|e] eqn:E; simpl; [|done].
  intros [= <-]. simpl. subst f l. rewrite ?length_map, ?length_fmap.
  assert (length ei = length (edges graph)) as Hlen.
  { clear -E. revert ei E. induction (edges graph) as [|[src dst] es IH]; intros ei; simpl.
    - by intros [= <-].
    - destruct (getitem m src); [|done]. destruct (getitem m dst); [|done]. simpl.
      destruct (edges_loop m es) as [rest|]; [|done]. simpl.
      intros [= <-]. simpl. by rewrite (IH rest). }
  repeat split; auto.
  apply Forall_forall. intros row Hrow.
  apply list_elem_of_fmap in Hrow as (nd & -> & _). done.
Qed.

(** In a graph whose node names are distinct, the node mapping sends each
    node to its position in the enumeration: looking a node up gives back the
    row it was encoded in. *)
Theorem node_mapping_position (ns : list (string * gmap string float)) (i : nat)
    (node : string) :
  NoDup (ns.*1) →
  ns.*1 !! i = Some node →
  (nodes_loop ns).2 !! node = Some i.
Proof.
  intros Hnd Hi. destruct (nodes_loop_spec ns) as (_ & _ & Hpos & Hdom).
  destruct (proj1 (Hdom node)) as [j Hj]; [by eapply list_elem_of_lookup_2|].
  rewrite Hj. f_equal. eapply NoDup_lookup; [exact Hnd| |exact Hi]. by apply Hpos.
Qed.

(** ** The normalizer *)

Lemma Rsum_cons (a : R) (l : list R) : Rsum (a :: l) = (a + Rsum l)%R.
Proof. done. Qed.

Lemma foldl_add_absorbs (l : list float) (acc : float) :
  (acc = PInf ∨ acc = NaN) →
  (foldl Float.add acc l = PInf ∨ foldl Float.add acc l = NaN).
Proof.
  revert acc. induction l as [|v l IH]; intros acc H; simpl; [done|].
  apply IH. destruct H as [-> | ->]; destruct v; simpl; auto.
Qed.

Lemma foldl_add_absorbs_neg (l : list float) (acc : float) :
  (acc = NInf ∨ acc = NaN) →
  (foldl Float.add acc l = NInf ∨ foldl Float.add acc l = NaN).
Proof.
  revert acc. induction l as [|v l IH]; intros acc H; simpl; [done|].
  apply IH. destruct H as [-> | ->]; destruct v; simpl; auto.
Qed.

Lemma foldl_add_NaN (l : list float) : foldl Float.add NaN l = NaN.
Proof. induction l as [|v l IH]; simpl; [done|]. exact IH. Qed.

(** The sum of an array with an entry that is not finite is not finite, and
    is NaN or that infinity. *)
Lemma foldl_add_not_finite (l : list float) (acc v : float) :
  v ∈ l → Float.is_finite v = false →
  foldl Float.add acc l = v ∨ foldl Float.add acc l = NaN.
Proof.
  revert acc. induction l as [|u l IH]; intros acc Hin Hv; [by apply elem_of_nil in Hin|].
  apply elem_of_cons in Hin as [<-|Hin]; [|by apply IH].
  simpl. destruct v; [done| | |].
  - apply foldl_add_absorbs. destruct acc; simpl; auto.
  - apply foldl_add_absorbs_neg. destruct acc; simpl; auto.
  - right. replace (Float.add acc NaN) with NaN by by destruct acc.
    apply foldl_add_NaN.
Qed.

Lemma foldl_add_has_NaN (l : list float) (acc : float) :
  NaN ∈ l → foldl Float.add acc l = NaN.
Proof. intros H. by destruct (foldl_add_not_finite l acc NaN H). Qed.

(** One label that is not finite (NaN or an infinity) turns every
    standardized label into NaN. *)
Theorem standardize_labels_not_finite (t : list float) (v : float) :
  v ∈ t → Float.is_finite v = false →
  standardize_labels t = replicate (length t) NaN.
Proof.
  intros Hin Hv.
  assert (t ≠ []) as Hne by (intros ->; by apply elem_of_nil in Hin).
  assert (Float.mean t = v ∨ Float.mean t = NaN) as Hmean.
  { unfold Float.mean, Float.sum, Float.of_nat.
    assert (¬ (INR (length t) < 0)%R) as Hpos by (apply Rle_not_lt, pos_INR).
    destruct (foldl_add_not_finite t (Fin 0) v Hin Hv) as [-> | ->]; [|by right].
    destruct v; [done| | |by right]; simpl; destruct (Rlt_dec _ _); try done; by left. }
  assert (Float.sub v (Float.mean t) = NaN) as Hdev.
  { destruct Hmean as [-> | ->]; by destruct v. }
  assert (tensor_std t = NaN) as Hstd.
  { unfold tensor_std.
    unfold Float.sum.
    rewrite (foldl_add_has_NaN _ (Fin 0)); [done|].
    apply list_elem_of_fmap. exists v. by rewrite Hdev. }
  unfold standardize_labels. rewrite Hstd.
  generalize (Float.mean t). clear. intros m.
  induction t as [|u t IH]; simpl; [done|]. rewrite IH. f_equal.
  by destruct (Float.sub u m).
Qed.

Lemma length_omap_total {A B} (f : A → option B) (l : list A) :
  Forall (fun a => is_Some (f a)) l → length (omap f l) = length l.
Proof.
  induction 1 as [|a l [b Hb] _ IH]; csimpl; [done|]. by rewrite Hb, <- IH.
Qed.

Lemma length_scale_column (col : list float) : length (scale_column col) = length col.
Proof. unfold scale_column. by rewrite length_map. Qed.

(** The scaler returns a matrix of the shape it was given. *)
Lemma fit_transform_shape (m m' : list (list float)) (c : nat) :
  fit_transform m = Ok m' →
  length m' = length m ∧
  (Forall (fun row => length row = c) m → Forall (fun row => length row = c) m').
Proof.
  unfold fit_transform. destruct m as [|row0 rest] eqn:Hm; [done|]. rewrite <- Hm.
  destruct (has_inf m); [done|]. intros [= <-].
  split; [by rewrite length_map, length_seq|].
  intros Hrect.
  assert (length row0 = c) as Hc by (rewrite Hm in Hrect; by inversion Hrect).
  apply Forall_forall. intros row Hrow.
  apply list_elem_of_fmap in Hrow as (i & -> & Hi). apply elem_of_seq in Hi.
  rewrite length_omap_total.
  - by rewrite length_map, length_seq.
  - apply Forall_forall. intros col Hcol.
    apply list_elem_of_fmap in Hcol as (j & -> & Hj). apply elem_of_seq in Hj.
    apply lookup_lt_is_Some_2. rewrite length_scale_column. unfold column.
    rewrite length_omap_total; [lia|].
    eapply Forall_impl; [exact Hrect|]. intros r Hr. simpl in Hr.
    apply lookup_lt_is_Some_2. lia.
Qed.

(** Preprocessing keeps the graph's shape: the same number of nodes and
    labels, feature rows of the same width, and the edges untouched. *)
Theorem preprocess_shape (data data' : Data) :
  preprocess data = Ok data' →
  num_nodes data' = num_nodes data ∧
  length (y data') = length (y data) ∧
  edge_index data' = edge_index data ∧
  (∀ c, Forall (fun row => length row = c) (x data) →
        Forall (fun row => length row = c) (x data')).
Proof.
  unfold preprocess, num_nodes.
  destruct (fit_transform (x data)) as [x'|] eqn:E; [|done]. simpl.
  intros [= <-]. simpl. unfold standardize_labels. rewrite length_map.
  repeat split; [by apply (fit_transform_shape _ _ 0 E)|].
  intros c. by apply (fit_transform_shape _ _ c E).
Qed.

(** ** The Partitioner: when it returns and how it fails *)

Lemma pool_size_default (n : nat) :
  pool_size n default_train_ratio = (- ((- (3 * Z.of_nat n)) / 10))%Z.
Proof. done. Qed.

Lemma val_size_default (n : nat) :
  val_size n default_val_ratio = ((15 * Z.of_nat n) ÷ 100)%Z.
Proof. done. Qed.

Section PartitionerRuns.

Variable RandomState : Type.
Variable seeded : Z → RandomState.
Variable permutation : RandomState → nat → list nat * RandomState.

Hypothesis permutation_perm : ∀ g n, (permutation g n).1 ≡ₚ seq 0 n.

Local Abbreviation split_data := (split_data RandomState seeded permutation).
Local Abbreviation train_test_split := (train_test_split RandomState seeded permutation).

(** What [split_data] returns when the library's size checks pass. *)
Lemma split_data_result (data : Data) (train_ratio val_ratio : Q) (global : RandomState) :
  let n := num_nodes data in
  let pool := Z.to_nat (pool_size n train_ratio) in
  let k := Z.to_nat (val_size n val_ratio) in
  let p := (permutation (seeded 42) n).1 in
  let p2 := (permutation (seeded 42) pool).1 in
  (0 < train_ratio)%Q → (train_ratio < 1)%Q →
  (pool_size n train_ratio < Z.of_nat n)%Z →
  (0 < val_size n val_ratio < pool_size n train_ratio)%Z →
  split_data data train_ratio val_ratio global =
    (Ok (drop pool p,
         (fun i => nth i (take pool p) 0) <$> drop (pool - k) p2,
         (fun i => nth i (take pool p) 0) <$> take (pool - k) p2), global).
Proof.
  intros n pool k p p2 H0 H1 Hpool [Hk0 Hk1].
  set (a := take pool p).
  destruct (first_split RandomState seeded permutation permutation_perm
              n train_ratio global H0 H1 Hpool) as (Hfs & Hla & Hpos).
  fold p pool a in Hfs, Hla.
  set (kz := val_size n val_ratio) in *.
  set (ts := (inject_Z (Z.of_nat (length a) - kz) / inject_Z (Z.of_nat (length a)))%Q).
  assert (Qceiling (ts * inject_Z (Z.of_nat (length a))) = (Z.of_nat (length a) - kz)%Z)
    as Hceil by (apply Qceiling_div_mult; lia).
  assert (validate_shuffle_split (length a) ts
          = Ok (length a - Z.to_nat (Z.of_nat (length a) - kz),
                Z.to_nat (Z.of_nat (length a) - kz))) as Hv.
  { rewrite <- Hceil. apply validate_shuffle_split_ok.
    - apply Qlt_shift_div_l; [apply inject_Z_pos; lia|].
      rewrite Qmult_0_l. apply inject_Z_pos. lia.
    - apply Qlt_shift_div_r; [apply inject_Z_pos; lia|].
      rewrite Qmult_1_l, <- Zlt_Qlt. lia.
    - rewrite Hceil. lia. }
  unfold split_data. fold n. rewrite Hfs.
  destruct (decide (length a = 0)) as [Hz|_]; [lia|].
  rewrite length_seq.
  change (int_of (val_ratio * inject_Z (Z.of_nat n))) with kz. fold ts.
  rewrite (train_test_split_seeded RandomState seeded permutation permutation_perm
             a ts 42 global _ _ Hv) by lia.
  rewrite Hla. replace (Z.to_nat (Z.of_nat pool - kz)) with (pool - k) by (subst k; lia).
  done.
Qed.

Lemma train_test_split_test_nonempty (a : list nat) (test_size : Q)
    (random_state : option Z) (g g' : RandomState) (train test : list nat) :
  train_test_split a test_size random_state g = (Ok (train, test), g') →
  test ≠ [].
Proof.
  unfold train_test_split, validate_shuffle_split.
  destruct (Qle_bool test_size 0) eqn:E0; [done|]. simpl.
  destruct (Qle_bool 1 test_size); [done|].
  destruct (decide _) as [|Hne]; [done|].
  pose proof (permutation_length RandomState permutation permutation_perm
                (check_random_state RandomState seeded random_state g)
                (length a)) as Hlen.
  destruct (permutation _ _) as [perm rng']. simpl in Hlen.
  destruct (index_select a (take _ (drop _ perm))) as [tr|]; [|done].
  destruct (index_select a (take _ perm)) as [te|] eqn:E; [|done]. simpl.
  intros [= <- <- _] ->. apply index_select_length in E.
  rewrite length_take in E. simpl in E.
  assert (0 < Qceiling (test_size * inject_Z (Z.of_nat (length a))))%Z; [|lia].
  apply Qceiling_pos, Qmult_lt_0_compat.
  - apply Qnot_le_lt. intros Hle. apply Qle_bool_iff in Hle. congruence.
  - apply inject_Z_pos. lia.
Qed.

(** [split_data] never returns an empty split: when a part would be
    empty the library raises instead. *)
Theorem split_data_no_empty_split (data : Data) (train_ratio val_ratio : Q)
    (g g' : RandomState) (train val test : list nat) :
  split_data data train_ratio val_ratio g = (Ok (train, val, test), g') →
  train ≠ [] ∧ val ≠ [] ∧ test ≠ [].
Proof.
  unfold split_data.
  destruct (train_test_split (seq 0 (num_nodes data)) _ _ g)
    as [[[train0 test0]|] g1] eqn:E; [|done].
  destruct (decide _); [done|].
  destruct (train_test_split test0 _ _ g1) as [[[val0 test1]|] g2] eqn:E2; [|done].
  intros [= <- <- <- _]. repeat split.
  - by eapply (train_test_split_train_nonempty RandomState seeded permutation permutation_perm).
  - by eapply (train_test_split_train_nonempty RandomState seeded permutation permutation_perm).
  - by eapply train_test_split_test_nonempty.
Qed.

Lemma validate_shuffle_split_empty_train (n : nat) (test_size : Q) :
  (Z.of_nat n <= Qceiling (test_size * inject_Z (Z.of_nat n)))%Z →
  validate_shuffle_split n test_size = Raise ValueError.
Proof.
  intros H. unfold validate_shuffle_split.
  destruct (_ || _); [done|]. destruct (decide _) as [|Hne]; [done|]. lia.
Qed.

(** The inputs on which [split_data] returns, and what it does on the
    others. *)
Lemma split_data_cases (data : Data) (train_ratio val_ratio : Q) (global : RandomState) :
  let n := num_nodes data in
  let accepted := (0 < train_ratio)%Q ∧ (train_ratio < 1)%Q ∧
                  (pool_size n train_ratio < Z.of_nat n)%Z ∧
                  (0 < val_size n val_ratio < pool_size n train_ratio)%Z in
  (accepted ∧ ∃ train val test,
      split_data data train_ratio val_ratio global = (Ok (train, val, test), global)) ∨
  (¬ accepted ∧
      split_data data train_ratio val_ratio global = (Raise ValueError, global)).
Proof.
  intros n accepted. subst accepted.
  destruct (Qlt_le_dec 0 train_ratio) as [H0|H0].
  2:{ right. split; [intros (H & _); by apply (Qlt_not_le _ _ H)|].
      unfold split_data. rewrite train_test_split_raise with (e := ValueError); [done|].
      apply validate_shuffle_split_range. right. Lqa.lra. }
  destruct (Qlt_le_dec train_ratio 1) as [H1|H1].
  2:{ right. split; [intros (_ & H & _); by apply (Qlt_not_le _ _ H)|].
      unfold split_data. rewrite train_test_split_raise with (e := ValueError); [done|].
      apply validate_shuffle_split_range. left. Lqa.lra. }
  destruct (Z_lt_le_dec (pool_size n train_ratio) (Z.of_nat n)) as [Hpool|Hpool].
  2:{ right. split; [intros (_ & _ & H & _); lia|].
      unfold split_data. rewrite train_test_split_raise with (e := ValueError); [done|].
      rewrite length_seq. by apply validate_shuffle_split_empty_train. }
  destruct (decide (0 < val_size n val_ratio < pool_size n train_ratio)%Z) as [Hk|Hk].
  { left. split; [done|]. eexists _, _, _.
    by apply (split_data_result data train_ratio val_ratio global). }
  right. split; [by intros (_ & _ & _ & H)|].
  unfold split_data. fold n.
  destruct (first_split RandomState seeded permutation permutation_perm
              n train_ratio global H0 H1 Hpool) as (-> & Hlen & Hpos).
  destruct (decide _) as [Hz|_]; [lia|].
  rewrite length_seq. fold (val_size n val_ratio).
  rewrite train_test_split_raise with (e := ValueError); [done|].
  apply validate_shuffle_split_range.
  destruct (Z_lt_le_dec 0 (val_size n val_ratio)) as [Hk0|Hk0].
  - left. apply Qle_shift_div_r; [apply inject_Z_pos; lia|].
    rewrite Qmult_0_l. change 0%Q with (inject_Z 0). rewrite <- Zle_Qle. lia.
  - right. apply Qle_shift_div_l; [apply inject_Z_pos; lia|].
    rewrite Qmult_1_l, <- Zle_Qle. lia.
Qed.



End PartitionerRuns.

(** ** The trainer: what a run reads and reports *)

Lemma index_select_out_of_range {A} (a : list A) (idx : list nat) (i : nat) :
  i ∈ idx → length a ≤ i → index_select a idx = Raise IndexError.
Proof.
  intros Hin Hi. induction idx as [|j idx IH]; [by apply elem_of_nil in Hin|].
  simpl. destruct (a !! j) as [v|] eqn:E; [|done].
  apply elem_of_cons in Hin as [->|Hin].
  - apply lookup_ge_None_2 in Hi. congruence.
  - by rewrite IH.
Qed.

Section TrainingRuns.

Variable EnhancedGCN : Type.
Variable set_training : bool → EnhancedGCN → EnhancedGCN.
Variable forward : EnhancedGCN → list (list float) → list nat * list nat →
                   list float * EnhancedGCN.
Variable Optimizer : Type.
Variable Gradients : Type.
Variable new_optimizer : EnhancedGCN → R → Optimizer.
Variable backward : EnhancedGCN → list (list float) → list nat * list nat →
                    (list float → float) → Gradients.
Variable optimizer_step : Optimizer → Gradients → EnhancedGCN → EnhancedGCN * Optimizer.
Variable scheduler_step : Optimizer → Optimizer.

Local Abbreviation train_epoch := (train_epoch EnhancedGCN set_training forward Optimizer
                                     Gradients backward optimizer_step scheduler_step).
Local Abbreviation train_loop := (train_loop EnhancedGCN set_training forward Optimizer
                                     Gradients backward optimizer_step scheduler_step).
Local Abbreviation train_model := (train_model EnhancedGCN set_training forward Optimizer
                                     Gradients new_optimizer backward optimizer_step
                                     scheduler_step).

(** The trained model and the train losses do not depend on the
    validation split: two runs on data that differ only in [val_idx] end
    with the same model and report the same train loss in every epoch. *)
Theorem train_model_ignores_val_idx (model m1 m2 : EnhancedGCN) (data1 data2 : Data)
    (epochs : nat) (lr : R) (l1 l2 : list EpochMetrics) :
  x data1 = x data2 → edge_index data1 = edge_index data2 → y data1 = y data2 →
  train_idx data1 = train_idx data2 →
  train_model model data1 epochs lr = Ok (m1, l1) →
  train_model model data2 epochs lr = Ok (m2, l2) →
  m1 = m2 ∧ train_loss <$> l1 = train_loss <$> l2.
Proof.
  intros Hx He Hy Ht. unfold train_model.
  destruct (train_loop data1 0 epochs _) as [[[ma oa] la]|] eqn:E1; [|done].
  destruct (train_loop data2 0 epochs _) as [[[mb ob] lb]|] eqn:E2; [|done].
  simpl. intros [= <- <-] [= <- <-].
  destruct (train_loop_ignores_val_idx EnhancedGCN set_training forward Optimizer
              Gradients backward optimizer_step scheduler_step
              data1 data2 epochs 0 _ _ _ _ _ _ _ Hx He Hy Ht E1 E2) as (? & _ & ?).
  done.
Qed.

Lemma train_loop_epochs (data : Data) (first epochs : nat) (st : EnhancedGCN * Optimizer)
    (model : EnhancedGCN) (optimizer : Optimizer) (lines : list EpochMetrics) :
  train_loop data first epochs st = Ok (model, optimizer, lines) →
  epoch <$> lines = seq (first + 1) epochs.
Proof.
  revert first st model optimizer lines.
  induction epochs as [|n IH]; intros first st model optimizer lines.
  - simpl. by intros [= _ <-].
  - rewrite (train_loop_S EnhancedGCN set_training forward Optimizer Gradients
               backward optimizer_step scheduler_step).
    destruct (train_epoch data first st) as [[[m o] line]|] eqn:E; [|done]. simpl.
    destruct (train_loop data (S first) n (m, o)) as [[[m' o'] ls]|] eqn:E'; [|done].
    simpl. intros [= _ _ <-]. csimpl. rewrite (IH _ _ _ _ _ E').
    replace (S first + 1) with (S (first + 1)) by lia. f_equal.
    unfold train_epoch in E. destruct st as [m0 o0].
    destruct (forward _ _ _) as [out m1]. cbv zeta in E.
    destruct (tensor_getitem (squeeze out) (train_idx data)); [|done].
    destruct (index_select (y data) (train_idx data)); [|done]. cbn [bind] in E.
    destruct (optimizer_step _ _ _) as [m2 o2].
    destruct (tensor_getitem (squeeze out) (val_idx data)); [|done].
    destruct (index_select (y data) (val_idx data)); [|done]. cbn [bind] in E.
    by injection E as _ _ <-.
Qed.

(** A run that returns has trained for exactly the number of epochs asked
    for: it reports one line per epoch, numbered 1, 2, ..., [epochs]; no
    epoch is skipped and the loop never stops early. *)
Theorem train_model_runs_all_epochs (model model' : EnhancedGCN) (data : Data)
    (epochs : nat) (lr : R) (lines : list EpochMetrics) :
  train_model model data epochs lr = Ok (model', lines) →
  epoch <$> lines = seq 1 epochs.
Proof.
  unfold train_model.
  destruct (train_loop data 0 epochs _) as [[[m o] ls]|] eqn:E; [|done].
  simpl. intros [= _ <-]. by apply (train_loop_epochs _ _ _ _ _ _ _ E).
Qed.

(** A train index that is not a row of the network's output makes the
    first epoch, and so the whole run, fail with [IndexError]. *)
Theorem train_model_index_error (model : EnhancedGCN) (data : Data)
    (epochs : nat) (lr : R) (i : nat) :
  0 < epochs →
  i ∈ train_idx data →
  length (forward (set_training true model) (x data) (edge_index data)).1 ≤ i →
  train_model model data epochs lr = Raise IndexError.
Proof.
  intros Hep Hin Hi. unfold train_model. destruct epochs as [|n]; [lia|].
  rewrite (train_loop_S EnhancedGCN set_training forward Optimizer Gradients
             backward optimizer_step scheduler_step).
  unfold train_epoch at 1.
  destruct (forward _ _ _) as [out m1]. cbn [fst] in Hi. cbv zeta.
  destruct (squeeze out) as [v|l] eqn:Hs; [done|].
  assert (l = out) as -> by (destruct out as [|? [|? ?]]; by inversion Hs).
  cbn [tensor_getitem]. by rewrite (index_select_out_of_range out _ i Hin Hi).
Qed.

End TrainingRuns.

(** ** The evaluator: failures and ranges *)

Lemma check_arrays_cases (t p : list float) :
  (t ≠ [] ∧ forallb Float.is_finite t = true ∧ forallb Float.is_finite p = true ∧
     check_arrays t p = Ok ()) ∨
  ((t = [] ∨ forallb Float.is_finite t = false ∨ forallb Float.is_finite p = false) ∧
     check_arrays t p = Raise ValueError).
Proof.
  unfold check_arrays. destruct (decide (length t = 0)) as [Hz|Hz].
  { right. split; [|done]. left. by destruct t. }
  destruct (forallb Float.is_finite t) eqn:Et; [|right; auto].
  destruct (forallb Float.is_finite p) eqn:Ep; [|right; auto].
  left. split; [intros ->; by apply Hz|]. by repeat split.
Qed.

Lemma compute_metrics_cases (p t : list float) :
  (t ≠ [] ∧ forallb Float.is_finite t = true ∧ forallb Float.is_finite p = true ∧
     ∃ m, compute_metrics p t = Ok m) ∨
  ((t = [] ∨ forallb Float.is_finite t = false ∨ forallb Float.is_finite p = false) ∧
     compute_metrics p t = Raise ValueError).
Proof.
  unfold compute_metrics, mean_absolute_error, mean_squared_error.
  destruct (check_arrays_cases t p) as [(? & ? & ? & ->)|[? ->]].
  - left. simpl. repeat split; eauto.
  - right. by split.
Qed.

Section EvaluatorRuns.

Variable EnhancedGCN : Type.
Variable set_training : bool → EnhancedGCN → EnhancedGCN.
Variable forward : EnhancedGCN → list (list float) → list nat * list nat →
                   list float * EnhancedGCN.

Local Abbreviation evaluate_model := (evaluate_model EnhancedGCN set_training forward).

(** On a graph of more than one node and test rows that are in range,
    the Evaluator returns a report exactly when the test split has at least
    two rows and every selected label and prediction is finite.  On one
    test row it raises [TypeError]; on no test row, or on a NaN or infinite
    label or prediction, it raises [ValueError]. *)
Theorem evaluate_model_returns_iff (model : EnhancedGCN) (data : Data)
    (p t : list float) :
  length (forward (set_training false model) (x data) (edge_index data)).1 ≠ 1 →
  index_select (y data) (test_idx data) = Ok t →
  index_select (forward (set_training false model) (x data) (edge_index data)).1
               (test_idx data) = Ok p →
  let accepted := 2 ≤ length (test_idx data) ∧
                  Forall (fun v => Float.is_finite v = true) t ∧
                  Forall (fun v => Float.is_finite v = true) p in
  (accepted ↔ ∃ m, evaluate_model model data = Ok m) ∧
  (length (test_idx data) = 1 → evaluate_model model data = Raise TypeError) ∧
  (length (test_idx data) ≠ 1 → ¬ accepted →
   evaluate_model model data = Raise ValueError).
Proof.
  intros Hout Ht Hp accepted. subst accepted.
  pose proof (index_select_length _ _ _ Ht) as Hlen.
  assert (length (test_idx data) = 1 → evaluate_model model data = Raise TypeError) as H1.
  { intros H. destruct (test_idx data) as [|i [|j idx]] eqn:Hidx; try done.
    simpl in Ht, Hp.
    destruct (y data !! i) eqn:Ey; [|done].
    destruct (_ !! i) eqn:Ep in Hp; [|done].
    apply (evaluate_model_one_row _ _ _ model data i Hidx).
    - by eapply lookup_lt_Some.
    - by eapply lookup_lt_Some.
    - done. }
  assert (∀ l, Forall (fun v => Float.is_finite v = true) l ↔
               forallb Float.is_finite l = true) as Hfa.
  { intros l. rewrite forallb_forall, Forall_forall.
    split; intros H v Hv; apply H; by apply list_elem_of_In. }
  rewrite !Hfa.
  destruct (decide (length (test_idx data) = 1)) as [E1|E1].
  { rewrite (H1 E1). split; [|split; [done|done]].
    split; [intros (? & _); lia|by intros [m Hm]]. }
  rewrite (evaluate_model_unfold _ _ _ _ _ _ _ Hout E1 Ht Hp).
  assert (2 ≤ length (test_idx data) ↔ t ≠ []) as Hne.
  { split; [intros H ->; simpl in Hlen; lia|].
    intros H. destruct t; [done|]. simpl in Hlen. lia. }
  rewrite Hne.
  destruct (compute_metrics_cases p t) as [(H2 & H3 & H4 & m & Hm)|[Hbad Hr]].
  - rewrite Hm. split; [split; eauto|]. split; [done|]. intros _ H. exfalso. by apply H.
  - rewrite Hr. split; [|by split].
    split; [|by intros [m Hm]].
    intros (H2 & H3 & H4). destruct Hbad as [?|[?|?]]; congruence.
Qed.

End EvaluatorRuns.

Lemma Rsum_bounds (l : list R) :
  Forall (fun r => (0 <= r <= 1)%R) l → (0 <= Rsum l <= INR (length l))%R.
Proof.
  induction 1 as [|r l Hr _ IH]; [unfold Rsum; simpl; lra|].
  rewrite Rsum_cons. cbn [length]. rewrite S_INR. lra.
Qed.

Lemma mean_agree_range (a b : list R) :
  a ≠ [] → b ≠ [] →
  ∃ r, mean_agree (Fin <$> a) (Fin <$> b) = Fin r ∧ (0 <= r <= 1)%R.
Proof.
  intros Ha Hb. unfold mean_agree.
  rewrite (zip_with_Fin _ (fun u v => if bool_decide (u = v) then 1 else 0)%R) by done.
  set (l := zip_with _ a b).
  assert (l ≠ []) as Hl by (subst l; destruct a, b; done).
  assert (Forall (fun r => (0 <= r <= 1)%R) l) as Hall.
  { subst l. clear. revert b. induction a as [|u a IH]; intros [|v b]; simpl;
      try constructor; [|apply IH]. destruct (bool_decide _); lra. }
  rewrite mean_Fin by done. eexists. split; [reflexivity|].
  pose proof (Rsum_bounds l Hall) as [H0 H1].
  assert (0 < INR (length l))%R as Hn by (apply lt_0_INR; destruct l; simpl; [done|lia]).
  split.
  - apply Rmult_le_pos; [done|]. left. by apply Rinv_0_lt_compat.
  - apply Rmult_le_reg_r with (INR (length l)); [done|].
    unfold Rdiv. rewrite Rmult_assoc, Rinv_l by lra. lra.
Qed.

Lemma percent_range (v : float) :
  (∃ r, v = Fin r ∧ (0 <= r <= 1)%R) →
  ∃ r, Float.mul v (Fin 100) = Fin r ∧ (0 <= r <= 100)%R.
Proof. intros (r & -> & Hr). exists (r * 100)%R. split; [done|]. lra. Qed.

Lemma clip1_range (v : float) :
  Float.clip1 v = NaN ∨ ∃ r, Float.clip1 v = Fin r ∧ (-1 <= r <= 1)%R.
Proof.
  destruct v as [r| | |]; simpl; [|right; eexists; split; [done|lra]..|by left].
  right. destruct (Rlt_dec r (-1)); [eexists; split; [done|lra]|].
  destruct (Rlt_dec 1 r); eexists; (split; [done|lra]).
Qed.

Lemma foldl_add_PInf (l : list float) (acc : float) :
  Forall (fun v => Float.is_finite v = true ∨ v = PInf) l →
  (Float.is_finite acc = true ∨ acc = PInf) →
  PInf ∈ l ∨ acc = PInf →
  foldl Float.add acc l = PInf.
Proof.
  intros Hall. revert acc. induction Hall as [|v l Hv _ IH]; intros acc Hacc Hin; simpl.
  - destruct Hin as [Hin|Hin]; [by apply elem_of_nil in Hin|done].
  - apply IH.
    + destruct acc as [a| | |], v as [b| | |]; simpl in *;
        destruct Hacc as [Hacc|Hacc], Hv as [Hv|Hv]; try discriminate; auto.
    + destruct Hin as [Hin|Hin].
      * apply elem_of_cons in Hin as [Hin|Hin]; [|by left].
        right. subst v. destruct acc as [a| | |]; simpl in *;
          destruct Hacc as [Hacc|Hacc]; try discriminate; auto.
      * right. subst acc. destruct v as [b| | |]; simpl in *;
          destruct Hv as [Hv|Hv]; try discriminate; auto.
Qed.

Section EvaluatorRanges.

Variable EnhancedGCN : Type.
Variable set_training : bool → EnhancedGCN → EnhancedGCN.
Variable forward : EnhancedGCN → list (list float) → list nat * list nat →
                   list float * EnhancedGCN.

Local Abbreviation evaluate_model := (evaluate_model EnhancedGCN set_training forward).

(** On at least two test rows with finite labels and predictions, on a
    graph of more than one node, the Evaluator returns a report whose hit
    rate and directional accuracy are between 0 and 100, and whose
    information coefficient is NaN or lies between -1 and 1. *)
Theorem evaluate_model_ranges (model : EnhancedGCN) (data : Data) (ps ts : list R) :
  length (forward (set_training false model) (x data) (edge_index data)).1 ≠ 1 →
  2 ≤ length (test_idx data) →
  index_select (y data) (test_idx data) = Ok (Fin <$> ts) →
  index_select (forward (set_training false model) (x data) (edge_index data)).1
               (test_idx data) = Ok (Fin <$> ps) →
  ∃ m, evaluate_model model data = Ok m ∧
    (∃ h, Hit_Rate m = Fin h ∧ (0 <= h <= 100)%R) ∧
    (∃ d, Directional_Accuracy m = Fin d ∧ (0 <= d <= 100)%R) ∧
    (Information_Coefficient m = NaN ∨
     ∃ r, Information_Coefficient m = Fin r ∧ (-1 <= r <= 1)%R).
Proof.
  intros Hout H2 Ht Hp.
  assert (length (test_idx data) ≠ 1) as Hidx by lia.
  rewrite (evaluate_model_unfold _ _ _ _ _ _ _ Hout Hidx Ht Hp).
  pose proof (index_select_length _ _ _ Ht) as Hlt.
  pose proof (index_select_length _ _ _ Hp) as Hlp.
  rewrite length_fmap in Hlt, Hlp.
  assert (ts ≠ []) as Htne by (intros ->; simpl in Hlt; lia).
  assert (ps ≠ []) as Hpne by (intros ->; simpl in Hlp; lia).
  unfold compute_metrics, mean_absolute_error, mean_squared_error.
  rewrite check_arrays_Fin by done. cbn [bind]. eexists. split; [reflexivity|].
  cbn [Hit_Rate Directional_Accuracy Information_Coefficient].
  split; [|split].
  - destruct (signs_finite ps) as (rp & -> & Hrp).
    destruct (signs_finite ts) as (rt & -> & Hrt).
    apply percent_range, mean_agree_range.
    + intros ->. by destruct ps.
    + intros ->. by destruct ts.
  - destruct (deltas_Fin ps) as (dp & -> & Hdp).
    destruct (deltas_Fin ts) as (dt & -> & Hdt).
    destruct (signs_finite dp) as (rp & -> & Hrp).
    destruct (signs_finite dt) as (rt & -> & Hrt).
    apply percent_range, mean_agree_range.
    + intros ->. simpl in Hrp. lia.
    + intros ->. simpl in Hrt. lia.
  - apply clip1_range.
Qed.

(** On at least two test rows, on a graph of more than one node: when a
    test label is 0 and every such label is predicted with a nonzero value,
    the MAPE is [+inf] (a division of a nonzero error by 0), not NaN. *)
Theorem evaluate_model_mape_infinite (model : EnhancedGCN) (data : Data)
    (ps ts : list R) :
  length (forward (set_training false model) (x data) (edge_index data)).1 ≠ 1 →
  2 ≤ length (test_idx data) →
  index_select (y data) (test_idx data) = Ok (Fin <$> ts) →
  index_select (forward (set_training false model) (x data) (edge_index data)).1
               (test_idx data) = Ok (Fin <$> ps) →
  0%R ∈ ts →
  Forall2 (fun p t => t = 0%R → p ≠ 0%R) ps ts →
  ∃ m, evaluate_model model data = Ok m ∧ MAPE m = PInf.
Proof.
  intros Hout H2 Ht Hp Hz Hall.
  assert (length (test_idx data) ≠ 1) as Hidx by lia.
  rewrite (evaluate_model_unfold _ _ _ _ _ _ _ Hout Hidx Ht Hp).
  assert (ts ≠ []) as Htne by (intros ->; by apply elem_of_nil in Hz).
  destruct (compute_metrics_Fin ps ts Htne) as (m & Hm & _ & _ & Hmape & _).
  exists m. split; [done|]. rewrite Hmape.
  set (g := fun tv pv => Float.abs (Float.div (Float.sub tv pv) tv)).
  set (l := zip_with g (Fin <$> ts) (Fin <$> ps)).
  assert (Forall (fun v => Float.is_finite v = true ∨ v = PInf) l ∧ PInf ∈ l ∧ l ≠ [])
    as (Hfin & Hin & Hl).
  { subst l. clear -Hz Hall. induction Hall as [|p t ps ts Hpt Hall IH].
    - by apply elem_of_nil in Hz.
    - csimpl.
      assert (g (Fin t) (Fin p) = PInf ∧ t = 0%R ∨
              Float.is_finite (g (Fin t) (Fin p)) = true ∧ t ≠ 0%R) as Hhead.
      { unfold g. simpl. destruct (Req_dec_T t 0) as [->|Hne]; [left|right; by split].
        split; [|done]. unfold Float.scale_inf.
        destruct (Req_dec_T (0 + - p) 0) as [E|_]; [exfalso; apply (Hpt eq_refl); lra|].
        by destruct (Rlt_dec 0 (0 + - p)). }
      destruct Hhead as [[Hg Ht0]|[Hg Ht0]].
      + rewrite Hg. split; [|split; [left|done]].
        constructor; [by right|].
        destruct (decide (0%R ∈ ts)) as [Hin|Hnin]; [by apply IH|].
        clear -Hall. induction Hall as [|p t ps ts Hpt _ IH]; csimpl; constructor; [|done].
        unfold g. simpl. destruct (Req_dec_T t 0) as [->|]; [|by left].
        unfold Float.scale_inf.
        destruct (Req_dec_T _ 0) as [E|_]; [exfalso; apply (Hpt eq_refl); lra|].
        destruct (Rlt_dec _ _); by right.
      + apply elem_of_cons in Hz as [Hz|Hz]; [by symmetry in Hz|].
        destruct (IH Hz) as (? & ? & ?).
        split; [constructor; [by left|done]|]. split; [by right|done]. }
  unfold Float.mean, Float.sum.
  rewrite foldl_add_PInf; [|done|by left|by left].
  unfold Float.of_nat. simpl.
  destruct (Rlt_dec (INR (length l)) 0) as [Hneg|_].
  { exfalso. apply (Rlt_not_le _ _ Hneg). apply pos_INR. }
  simpl. unfold Float.scale_inf. destruct (Req_dec_T 100 0); [lra|].
  destruct (Rlt_dec 0 100); [done|lra].
Qed.

End EvaluatorRanges.

(** ** The sequence pipeline: windows, split, direction metrics *)

Lemma omap_lookup_seq {A} (l : list A) (s n : nat) :
  s + n ≤ length l → omap (fun i => l !! i) (seq s n) = take n (drop s l).
Proof.
  revert s. induction n as [|n IH]; intros s Hs; [done|].
  destruct (lookup_lt_is_Some_2 l s) as [v Hv]; [lia|].
  csimpl. rewrite Hv. simpl. rewrite IH by lia.
  by rewrite (drop_S _ _ _ Hv).
Qed.

(** What [load_and_preprocess_data] returns: one window per price after
    the first [sequence_length], each of [sequence_length] consecutive scaled
    prices, with the scaled price that follows it as its target. *)
Theorem windows_and_targets (prices : list R) (sequence_length : nat)
    (X : list (list R)) (y : list R) (scaler : LSTM.MinMaxScaler) :
  LSTM.load_and_preprocess_data prices sequence_length = Ok (X, y, scaler) →
  let prices_scaled := map (LSTM.transform scaler) prices in
  sequence_length < length prices ∧
  length X = length prices - sequence_length ∧
  y = drop sequence_length prices_scaled ∧
  ∀ k, k < length prices - sequence_length →
    X !! k = Some (take sequence_length (drop k prices_scaled)) ∧
    length (take sequence_length (drop k prices_scaled)) = sequence_length ∧
    y !! k = prices_scaled !! (k + sequence_length).
Proof.
  unfold LSTM.load_and_preprocess_data.
  destruct (LSTM.fit prices) as [s|] eqn:E; [|done]. simpl.
  destruct (decide _) as [|Hne]; [done|]. intros [= <- <- <-].
  set (scaled := map (LSTM.transform s) prices) in *.
  assert (length scaled = length prices) as Hlen by (subst scaled; by rewrite length_map).
  rewrite Hlen in Hne. rewrite Hlen.
  assert (sequence_length < length prices) as Hsl.
  { destruct (decide (sequence_length < length prices)) as [|Hge]; [done|].
    exfalso. apply Hne. replace (length prices - sequence_length) with 0 by lia. done. }
  assert (omap (fun i => scaled !! i) (seq sequence_length (length prices - sequence_length))
          = drop sequence_length scaled) as Hy.
  { rewrite omap_lookup_seq by lia. apply take_ge. rewrite length_drop. lia. }
  split; [done|]. split; [by rewrite length_map, length_seq|]. split; [done|].
  intros k Hk. split; [|split].
  - change (map ?f ?l) with (f <$> l) at 1. rewrite list_lookup_fmap, lookup_seq_lt by done.
    simpl. unfold LSTM.slice. f_equal. f_equal; [lia|f_equal; lia].
  - rewrite length_take, length_drop. lia.
  - rewrite Hy, lookup_drop. f_equal. lia.
Qed.

(** [load_and_preprocess_data] fails on too few prices: with no price the
    scaler raises [ValueError], and with at least one but no more than
    [sequence_length] there is no window and the reshape raises
    [IndexError]. *)
Theorem too_few_prices (prices : list R) (sequence_length : nat) :
  (prices = [] → LSTM.load_and_preprocess_data prices sequence_length = Raise ValueError) ∧
  (prices ≠ [] → length prices ≤ sequence_length →
   LSTM.load_and_preprocess_data prices sequence_length = Raise IndexError).
Proof.
  unfold LSTM.load_and_preprocess_data. split.
  - by intros ->.
  - intros Hne Hlen. destruct prices as [|p rest]; [done|].
    cbn [LSTM.fit bind]. rewrite length_map.
    replace (length (p :: rest) - sequence_length) with 0 by lia.
    cbn [seq map]. by case_decide.
Qed.

Lemma split_index_floor (n : nat) : LSTM.split_index n = 8 * n / 10.
Proof.
  unfold LSTM.split_index, int_of. cbn [Qnum Qden Qmult inject_Z].
  change (Z.pos (1 * 10)) with 10%Z.
  rewrite Z.quot_div_nonneg by lia.
  apply Nat2Z.inj. rewrite Z2Nat.id by (apply Z.div_pos; lia).
  rewrite (Nat2Z.inj_div (8 * n) 10).
  f_equal. lia.
Qed.

(** The split of the windows is chronological and complete: the train
    part is the first [floor(0.8 * n)] windows, the test part the remaining
    ones in their order, and the test part is not empty when there is a
    window. *)
Theorem train_test_chronological {A} (X train test : list A) :
  LSTM.train_test X = (train, test) →
  train ++ test = X ∧
  length train = 8 * length X / 10 ∧
  (X ≠ [] → test ≠ []) ∧
  (length X < 2 → train = []).
Proof.
  unfold LSTM.train_test. intros [= <- <-].
  rewrite take_drop, length_take, split_index_floor.
  assert (8 * length X / 10 ≤ length X) as Hle.
  { apply Nat.Div0.div_le_upper_bound. lia. }
  repeat split; [lia| |].
  - intros Hne Hd. apply (f_equal length) in Hd. rewrite length_drop in Hd. change (length (@nil A)) with 0 in Hd.
    assert (0 < length X) by (destruct X; simpl; [done|lia]).
    assert (8 * length X / 10 < length X); [|lia].
    apply Nat.Div0.div_lt_upper_bound. lia.
  - intros Hlt. apply length_zero_iff_nil. rewrite length_take.
    assert (8 * length X / 10 = 0); [|lia].
    apply Nat.div_small. lia.
Qed.

Lemma Rsum_le (l1 l2 : list R) :
  Forall2 Rle l1 l2 → (Rsum l1 <= Rsum l2)%R.
Proof.
  induction 1 as [|a b l1 l2 Hab _ IH]; [unfold Rsum; simpl; lra|].
  rewrite !Rsum_cons. lra.
Qed.

Lemma zip_of_bool {A B} (f : A → B → bool) (l : list A) (k : list B) :
  zip_with (fun a p => Float.of_bool (f a p)) l k =
  Fin <$> zip_with (fun a p => if f a p then 1%R else 0%R) l k.
Proof.
  revert k. induction l as [|a l IH]; intros [|p k]; csimpl; try done.
  rewrite IH. by destruct (f a p).
Qed.

Lemma indicator_range {A B} (f : A → B → bool) (l : list A) (k : list B) :
  Forall (fun r => (0 <= r <= 1)%R) (zip_with (fun a p => if f a p then 1%R else 0%R) l k).
Proof.
  revert k. induction l as [|a l IH]; intros [|p k]; simpl; constructor; [|apply IH].
  destruct (f a p); lra.
Qed.

Lemma indicator_le {A B} (f g : A → B → bool) (l : list A) (k : list B) :
  (∀ a p, g a p = true → f a p = true) →
  Forall2 Rle (zip_with (fun a p => if g a p then 1%R else 0%R) l k)
              (zip_with (fun a p => if f a p then 1%R else 0%R) l k).
Proof.
  intros Hgf. revert k. induction l as [|a l IH]; intros [|p k]; simpl; constructor;
    [|apply IH].
  specialize (Hgf a p). destruct (g a p), (f a p); try lra; by specialize (Hgf eq_refl).
Qed.

(** The hit rate never exceeds the directional accuracy: it counts the
    same sign agreements, less those where the predicted change is zero.
    With one prediction per test row and at least two test rows, both are
    finite percentages, whatever the values (NaN and infinities included). *)
Theorem hit_rate_le_directional_accuracy (y_test_rescaled predictions_rescaled : list float) :
  length predictions_rescaled = length y_test_rescaled →
  2 ≤ length y_test_rescaled →
  ∃ h d, LSTM.hit_rate y_test_rescaled predictions_rescaled = Fin h ∧
         LSTM.directional_accuracy y_test_rescaled predictions_rescaled = Fin d ∧
         (0 <= h <= d)%R ∧ (d <= 100)%R.
Proof.
  intros Hp Hy. unfold LSTM.hit_rate, LSTM.directional_accuracy. cbv zeta.
  rewrite (zip_of_bool (fun a p => Float.eqb (Float.sign a) (Float.sign p))).
  rewrite (zip_of_bool (fun a p => Float.eqb (Float.sign a) (Float.sign p)
                                   && negb (Float.eqb (Float.sign p) (Fin 0)))).
  pose proof (indicator_range (fun a p => Float.eqb (Float.sign a) (Float.sign p))
                (deltas y_test_rescaled) (deltas predictions_rescaled)) as H1.
  pose proof (indicator_range (fun a p => Float.eqb (Float.sign a) (Float.sign p)
                                          && negb (Float.eqb (Float.sign p) (Fin 0)))
                (deltas y_test_rescaled) (deltas predictions_rescaled)) as H2.
  pose proof (indicator_le (fun a p => Float.eqb (Float.sign a) (Float.sign p))
                (fun a p => Float.eqb (Float.sign a) (Float.sign p)
                            && negb (Float.eqb (Float.sign p) (Fin 0)))
                (deltas y_test_rescaled) (deltas predictions_rescaled)) as Hle.
  set (r1 := zip_with _ _ _) in H1, Hle |- *.
  set (r2 := zip_with _ _ _) in H2, Hle |- *.
  specialize (Hle ltac:(by intros a p [? _]%andb_prop)).
  assert (length r1 = length r2 ∧ 0 < length r1) as [Hlen Hpos].
  { subst r1 r2. rewrite !length_zip_with. unfold deltas.
    rewrite !length_zip_with, !length_drop, !length_take. lia. }
  assert (r1 ≠ [] ∧ r2 ≠ []) as [Hne1 Hne2].
  { split; intros E; rewrite E in *; simpl in *; lia. }
  rewrite !mean_Fin by done. simpl. eexists _, _. split; [reflexivity|]. split; [reflexivity|].
  pose proof (Rsum_le _ _ Hle) as Hs.
  pose proof (Rsum_bounds r1 H1) as [_ Hu].
  pose proof (Rsum_bounds r2 H2) as [Hl _].
  rewrite <- Hlen.
  assert (0 < INR (length r1))%R as Hn by (apply lt_0_INR; lia).
  assert (0 < / INR (length r1))%R as Hinv by by apply Rinv_0_lt_compat.
  assert (Rsum r1 / INR (length r1) <= 1)%R as Hd1.
  { apply Rmult_le_reg_r with (INR (length r1)); [done|].
    unfold Rdiv. rewrite Rmult_assoc, Rinv_l by lra. lra. }
  assert (0 <= Rsum r2 / INR (length r1))%R as Hh0 by (apply Rmult_le_pos; lra).
  assert (Rsum r2 / INR (length r1) <= Rsum r1 / INR (length r1))%R as Hhd.
  { apply Rmult_le_compat_r; lra. }
  lra.
Qed.

(** ** The script as a whole *)

Lemma nx_to_pyg_data_closed (graph : Graph) :
  edges_closed graph →
  ∃ data, nx_to_pyg_data graph = Ok data ∧ num_nodes data = length (nodes graph).
Proof.
  intros Hall. unfold nx_to_pyg_data, num_nodes.
  destruct (nodes_loop_spec (nodes graph)) as (Hf & _ & _ & Hdom).
  destruct (nodes_loop (nodes graph)) as [[f l] m]. simpl in Hf, Hdom.
  destruct (edges_loop_ok m (edges graph)) as (ei & -> & _).
  { intros u v Huv. destruct (Hall u v Huv). split; by apply Hdom. }
  simpl. eexists. split; [done|]. simpl. subst f. by rewrite length_map.
Qed.

Lemma preprocess_cases (data : Data) :
  (∃ data', preprocess data = Ok data' ∧ num_nodes data' = num_nodes data) ∨
  preprocess data = Raise ValueError.
Proof.
  unfold preprocess, num_nodes.
  destruct (fit_transform (x data)) as [x'|e] eqn:E; simpl.
  - left. eexists. split; [done|]. simpl. by apply (fit_transform_shape _ _ 0 E).
  - right. unfold fit_transform in E. destruct (x data) as [|row0 rest]; [by inversion E|].
    destruct (has_inf _); by inversion E.
Qed.

(** With the default ratios a graph of fewer than 7 nodes fails one of the
    library's validations: below 7 nodes [int(0.15 * n)] is 0. *)
Lemma split_sizes_small (n : nat) :
  n < 7 →
  Double.split_sizes n Double.default_train_ratio Double.default_val_ratio
    = Raise ValueError.
Proof.
  intros Hn. do 7 (destruct n as [|n]; [vm_compute; reflexivity|]). lia.
Qed.

Section ScriptRuns.

Variable RandomState : Type.
Variable seeded : Z → RandomState.
Variable permutation : RandomState → nat → list nat * RandomState.
Variable EnhancedGCN : Type.
Variable set_training : bool → EnhancedGCN → EnhancedGCN.
Variable forward : EnhancedGCN → list (list float) → list nat * list nat →
                   list float * EnhancedGCN.
Variable Optimizer : Type.
Variable Gradients : Type.
Variable new_optimizer : EnhancedGCN → R → Optimizer.
Variable backward : EnhancedGCN → list (list float) → list nat * list nat →
                    (list float → float) → Gradients.
Variable optimizer_step : Optimizer → Gradients → EnhancedGCN → EnhancedGCN * Optimizer.
Variable scheduler_step : Optimizer → Optimizer.
Variable new_model : nat → nat → nat → EnhancedGCN.

Hypothesis permutation_perm : ∀ g n, (permutation g n).1 ≡ₚ seq 0 n.

Local Abbreviation run := (main RandomState seeded permutation EnhancedGCN set_training
                             forward Optimizer Gradients new_optimizer backward
                             optimizer_step scheduler_step new_model).

(** On a graph of fewer than 7 nodes the script stops before the network
    is built: the statements that prepare the data (lines 46 to 65) raise
    [ValueError], from the scaler (no node, or an infinite feature) or else
    from the split, and the main execution is not reached. *)
Theorem main_small_graph (graph : Graph) (global : RandomState) :
  edges_closed graph →
  length (nodes graph) < 7 →
  prepare RandomState seeded permutation graph global = Raise ValueError ∧
  run graph global = Raise ValueError.
Proof.
  intros Hclosed Hn.
  assert (prepare RandomState seeded permutation graph global = Raise ValueError) as Hp.
  { unfold prepare.
    destruct (nx_to_pyg_data_closed graph Hclosed) as (data & -> & Hd). cbn [bind].
    destruct (preprocess_cases data) as [(data' & -> & Hd') | ->]; [|done].
    cbn [bind].
    pose proof (double_split_data_cases RandomState seeded permutation permutation_perm
                  data' Double.default_train_ratio Double.default_val_ratio) as H.
    cbv zeta in H. rewrite split_sizes_small in H by lia.
    destruct H as [H _]. by rewrite H. }
  split; [done|]. unfold main. by rewrite Hp.
Qed.

End ScriptRuns.

(** ** Further runs on concrete inputs *)

Lemma encoding_shape_witness :
  match nx_to_pyg_data chain with
  | Ok data =>
      num_nodes data = 3 ∧ length (y data) = 3 ∧
      Forall (fun row => length row = 5) (x data) ∧
      length (edge_index data).1 = 2 ∧ length (edge_index data).2 = 2
  | Raise _ => False
  end.
Proof.
  destruct (nx_to_pyg_data chain) as [data|e] eqn:E.
  - exact (encoding_shape chain data E).
  - vm_compute in E. discriminate E.
Defined.

Lemma node_mapping_position_witness :
  (nodes_loop (nodes chain)).2 !! "B" = Some 1.
Proof.
  apply (node_mapping_position (nodes chain) 1 "B"); [|reflexivity].
  apply (bool_decide_unpack _). vm_compute. reflexivity.
Defined.

Lemma standardize_labels_not_finite_witness :
  standardize_labels [Fin 1; NaN; Fin 3] = [NaN; NaN; NaN].
Proof.
  apply (standardize_labels_not_finite [Fin 1; NaN; Fin 3] NaN); [|reflexivity].
  right. left.
Defined.

Lemma preprocess_shape_witness :
  match preprocess varying_labels with
  | Ok data' =>
      num_nodes data' = 2 ∧ length (y data') = 2 ∧ edge_index data' = ([], []) ∧
      (∀ c, Forall (fun row => length row = c) (x varying_labels) →
            Forall (fun row => length row = c) (x data'))
  | Raise _ => False
  end.
Proof.
  destruct (preprocess varying_labels) as [data'|e] eqn:E.
  - exact (preprocess_shape varying_labels data' E).
  - unfold preprocess in E. cbn [fit_transform varying_labels x bind] in E.
    discriminate E.
Defined.

Lemma split_data_no_empty_split_witness :
  match split_data Rotation.RandomState Rotation.seeded Rotation.permutation
                   (blank_data 10) default_train_ratio default_val_ratio 0 with
  | (Ok (train, val, test), _) => train ≠ [] ∧ val ≠ [] ∧ test ≠ []
  | (Raise _, _) => False
  end.
Proof.
  destruct (split_data _ _ _ _ _ _ _) as [[[[train val] test]|e] g'] eqn:E.
  - exact (split_data_no_empty_split Rotation.RandomState Rotation.seeded
             Rotation.permutation rotation_permutation_perm (blank_data 10)
             default_train_ratio default_val_ratio 0 g' train val test E).
  - vm_compute in E. discriminate E.
Defined.



Lemma train_model_ignores_val_idx_witness :
  ∃ m1 l1 m2 l2,
    Bias.train_model (Fin 0) two_nodes 1 (1 / 2) = Ok (m1, l1) ∧
    Bias.train_model (Fin 0) two_nodes_other_val 1 (1 / 2) = Ok (m2, l2) ∧
    m1 = m2 ∧ train_loss <$> l1 = train_loss <$> l2.
Proof.
  assert (∃ m1 l1, Bias.train_model (Fin 0) two_nodes 1 (1 / 2) = Ok (m1, l1))
    as (m1 & l1 & E1).
  { unfold Bias.train_model, train_model. float_eval. by eexists _, _. }
  assert (∃ m2 l2, Bias.train_model (Fin 0) two_nodes_other_val 1 (1 / 2) = Ok (m2, l2))
    as (m2 & l2 & E2).
  { unfold Bias.train_model, train_model. float_eval. by eexists _, _. }
  exists m1, l1, m2, l2. split; [exact E1|]. split; [exact E2|].
  by apply (train_model_ignores_val_idx Bias.EnhancedGCN Bias.set_training Bias.forward
              Bias.Optimizer Bias.Gradients Bias.new_optimizer Bias.backward
              Bias.optimizer_step Bias.scheduler_step (Fin 0) m1 m2
              two_nodes two_nodes_other_val 1 (1 / 2) l1 l2).
Defined.

Lemma train_model_runs_all_epochs_witness :
  ∃ model' lines,
    Bias.train_model (Fin 0) two_nodes 2 (1 / 2) = Ok (model', lines) ∧
    epoch <$> lines = [1; 2].
Proof.
  assert (∃ model' lines, Bias.train_model (Fin 0) two_nodes 2 (1 / 2) = Ok (model', lines))
    as (model' & lines & E).
  { unfold Bias.train_model, train_model. float_eval. by eexists _, _. }
  exists model', lines. split; [exact E|].
  exact (train_model_runs_all_epochs Bias.EnhancedGCN Bias.set_training Bias.forward
           Bias.Optimizer Bias.Gradients Bias.new_optimizer Bias.backward
           Bias.optimizer_step Bias.scheduler_step (Fin 0) model' two_nodes 2 (1 / 2)
           lines E).
Defined.

Lemma train_model_index_error_witness :
  Bias.train_model (Fin 0) two_nodes_train_past_end 3 (1 / 2) = Raise IndexError.
Proof.
  apply (train_model_index_error Bias.EnhancedGCN Bias.set_training Bias.forward
           Bias.Optimizer Bias.Gradients Bias.new_optimizer Bias.backward
           Bias.optimizer_step Bias.scheduler_step (Fin 0) two_nodes_train_past_end
           3 (1 / 2) 2).
  - lia.
  - right. left.
  - simpl. lia.
Defined.

Lemma evaluate_model_returns_iff_witness :
  (2 ≤ length (test_idx varying_labels) ∧
   Forall (fun v => Float.is_finite v = true) [Fin 1; Fin 2] ∧
   Forall (fun v => Float.is_finite v = true) [Fin 1; Fin 2]
   ↔ ∃ m, Echo.evaluate_model () varying_labels = Ok m) ∧
  (length (test_idx varying_labels) = 1 →
   Echo.evaluate_model () varying_labels = Raise TypeError) ∧
  (length (test_idx varying_labels) ≠ 1 →
   ¬ (2 ≤ length (test_idx varying_labels) ∧
      Forall (fun v => Float.is_finite v = true) [Fin 1; Fin 2] ∧
      Forall (fun v => Float.is_finite v = true) [Fin 1; Fin 2]) →
   Echo.evaluate_model () varying_labels = Raise ValueError).
Proof.
  apply (evaluate_model_returns_iff Echo.EnhancedGCN Echo.set_training Echo.forward
           () varying_labels [Fin 1; Fin 2] [Fin 1; Fin 2]); [done|reflexivity..].
Defined.

Lemma evaluate_model_ranges_witness :
  ∃ m, Bias.evaluate_model (Fin 0) varying_labels = Ok m ∧
    (∃ h, Hit_Rate m = Fin h ∧ (0 <= h <= 100)%R) ∧
    (∃ d, Directional_Accuracy m = Fin d ∧ (0 <= d <= 100)%R) ∧
    (Information_Coefficient m = NaN ∨
     ∃ r, Information_Coefficient m = Fin r ∧ (-1 <= r <= 1)%R).
Proof.
  apply (evaluate_model_ranges Bias.EnhancedGCN Bias.set_training Bias.forward
           (Fin 0) varying_labels [0; 0]%R [1; 2]%R);
    [done|simpl; lia|reflexivity..].
Defined.

Lemma evaluate_model_mape_infinite_witness :
  ∃ m, Bias.evaluate_model (Fin 1) zero_label = Ok m ∧ MAPE m = PInf.
Proof.
  apply (evaluate_model_mape_infinite Bias.EnhancedGCN Bias.set_training Bias.forward
           (Fin 1) zero_label [1; 1]%R [0; 1]%R);
    [done|simpl; lia|reflexivity..| |].
  - left.
  - repeat constructor; intros; lra.
Defined.

Lemma windows_and_targets_witness :
  match LSTM.load_and_preprocess_data [1; 3; 2; 4]%R 2 with
  | Ok (X, y, scaler) =>
      let prices_scaled := map (LSTM.transform scaler) [1; 3; 2; 4]%R in
      2 < 4 ∧
      length X = 2 ∧
      y = drop 2 prices_scaled ∧
      ∀ k, k < 2 →
        X !! k = Some (take 2 (drop k prices_scaled)) ∧
        length (take 2 (drop k prices_scaled)) = 2 ∧
        y !! k = prices_scaled !! (k + 2)
  | Raise _ => False
  end.
Proof.
  destruct (LSTM.load_and_preprocess_data [1; 3; 2; 4]%R 2) as [[[X y] scaler]|e] eqn:E.
  - exact (windows_and_targets [1; 3; 2; 4]%R 2 X y scaler E).
  - unfold LSTM.load_and_preprocess_data in E. cbn [LSTM.fit bind] in E.
    cbv zeta in E. cbn [length map seq Nat.sub] in E.
    destruct (decide _) as [Hd|_] in E; discriminate.
Defined.

Lemma train_test_chronological_witness :
  [1; 2; 3; 4] ++ [5] = [1; 2; 3; 4; 5] ∧
  length [1; 2; 3; 4] = 8 * length [1; 2; 3; 4; 5] / 10 ∧
  ([1; 2; 3; 4; 5] ≠ [] → [5] ≠ []) ∧
  (length [1; 2; 3; 4; 5] < 2 → [1; 2; 3; 4] = []).
Proof.
  apply (train_test_chronological [1; 2; 3; 4; 5] [1; 2; 3; 4] [5]). reflexivity.
Defined.

Lemma hit_rate_le_directional_accuracy_witness :
  ∃ h d, LSTM.hit_rate [Fin 1; Fin 2; Fin 2] [Fin 1; Fin 3; Fin 3] = Fin h ∧
         LSTM.directional_accuracy [Fin 1; Fin 2; Fin 2] [Fin 1; Fin 3; Fin 3] = Fin d ∧
         (0 <= h <= d)%R ∧ (d <= 100)%R.
Proof.
  apply (hit_rate_le_directional_accuracy [Fin 1; Fin 2; Fin 2] [Fin 1; Fin 3; Fin 3]);
    [reflexivity|simpl; lia].
Defined.

Lemma main_small_graph_witness :
  prepare Rotation.RandomState Rotation.seeded Rotation.permutation chain 0
    = Raise ValueError ∧
  main Rotation.RandomState Rotation.seeded Rotation.permutation
       Bias.EnhancedGCN Bias.set_training Bias.forward Bias.Optimizer Bias.Gradients
       Bias.new_optimizer Bias.backward Bias.optimizer_step Bias.scheduler_step
       (fun _ _ _ => Fin 0) chain 0 = Raise ValueError.
Proof.
  apply (main_small_graph Rotation.RandomState Rotation.seeded Rotation.permutation
           Bias.EnhancedGCN Bias.set_training Bias.forward Bias.Optimizer Bias.Gradients
           Bias.new_optimizer Bias.backward Bias.optimizer_step Bias.scheduler_step
           (fun _ _ _ => Fin 0) rotation_permutation_perm chain 0).
  - intros u v H. simpl in H.
    repeat (apply elem_of_cons in H as [Heq|H]; [injection Heq as -> ->; set_solver|]).
    by apply elem_of_nil in H.
  - simpl. lia.
Defined.
